(** * Quiz session of [app.py]: a shallow embedding of [main]

    [app.py] is a Streamlit script.  Streamlit runs [main] from top to bottom
    once per user interaction; what survives from one run to the next is
    [st.session_state].  The quiz "state machine" of the specification is
    therefore the effect of one run of [main] on [st.session_state], as a
    function of the widget values of that run (which button was clicked,
    which radio option is selected, which file is uploaded).

    The embedding follows the script statement by statement in a small monad
    carrying the session state, the page rendered so far and the three ways a
    run stops early ([return], [st.experimental_rerun()], an exception). *)

From Stdlib Require Import ZArith List String Ascii Bool Lia DecimalString.
From Stdlib Require Import Floats.SpecFloat.
Import ListNotations.

Local Open Scope string_scope.
Local Open Scope Z_scope.

(** ** Python values and the few built-ins the script uses *)

Module Py.

#[local] Set Warnings "-register-all".

(** What [json.loads] can return: [None], [bool], [int], [float], [str],
    [list] and [dict] with string keys.  A [dict] keeps its insertion order;
    its keys are pairwise different, so looking up the first binding of a key
    is looking up the key. *)
Inductive value : Type :=
| VNone
| VBool (b : bool)
| VInt (z : Z)
| VFloat (f : spec_float)
| VStr (s : string)
| VList (l : list value)
| VDict (d : list (string * value)).

(** The exceptions the script can run into outside its two [try] blocks.
    (Inside them, the only calls that raise are the extractors,
    [generate_questions] and [json.loads]; their outcome is part of the
    widget values of a run, see [upload] and [generation].) *)
Inductive exn : Type :=
| KeyError
| IndexError
| TypeError
| ZeroDivisionError
| StreamlitAPIException.

Inductive result (A : Type) : Type :=
| Ok (a : A)
| Raise (e : exn).
Arguments Ok {A} a.
Arguments Raise {A} e.

(** A Python [str] is a sequence of code points; it is held here as its
    UTF-8 bytes.  Bytes [0x80..0xBF] continue the code point begun before. *)
Definition is_continuation (a : ascii) : bool :=
  let n := nat_of_ascii a in (128 <=? n)%nat && (n <? 192)%nat.

(** [len(s)] for a [str]: the number of code points. *)
Fixpoint str_len (s : string) : nat :=
  match s with
  | EmptyString => O
  | String a t => ((if is_continuation a then 0 else 1) + str_len t)%nat
  end.

(** [s[:n]]: the first [n] code points. *)
Fixpoint str_take (n : nat) (s : string) : string :=
  match s with
  | EmptyString => EmptyString
  | String a t =>
      if is_continuation a then String a (str_take n t)
      else match n with
           | O => EmptyString
           | S n' => String a (str_take n' t)
           end
  end.

(** [s[n:]]: what follows the first [n] code points. *)
Fixpoint str_drop (n : nat) (s : string) : string :=
  match s with
  | EmptyString => EmptyString
  | String a t =>
      if is_continuation a then str_drop n t
      else match n with
           | O => s
           | S n' => str_drop n' t
           end
  end.

(** [s.endswith(suffix)].  Byte-wise comparison agrees with code-point-wise
    comparison on UTF-8. *)
Fixpoint endswith (s suffix : string) : bool :=
  String.eqb s suffix ||
  match s with
  | EmptyString => false
  | String _ t => endswith t suffix
  end.

(** [len(v)] *)
Definition len (v : value) : result Z :=
  match v with
  | VList l => Ok (Z.of_nat (List.length l))
  | VDict d => Ok (Z.of_nat (List.length d))
  | VStr s => Ok (Z.of_nat (str_len s))
  | _ => Raise TypeError
  end.

(** Python's index normalisation for sequences of length [n]: [-n <= i < 0]
    counts from the end, anything outside [-n <= i < n] is an [IndexError]. *)
Definition norm_index (n i : Z) : option nat :=
  if (0 <=? i) && (i <? n) then Some (Z.to_nat i)
  else if (- n <=? i) && (i <? 0) then Some (Z.to_nat (n + i))
  else None.

(** [s[i]] for a [str] [s]: the one-character string at position [i]. *)
Definition str_getitem (s : string) (i : Z) : result string :=
  match norm_index (Z.of_nat (str_len s)) i with
  | Some k => Ok (str_take 1 (str_drop k s))
  | None => Raise IndexError
  end.

(** [v[i]] for an [int] index.  The keys of a parsed JSON object are strings,
    so an [int] is never one of them. *)
Definition getitem_int (v : value) (i : Z) : result value :=
  match v with
  | VList l =>
      match norm_index (Z.of_nat (List.length l)) i with
      | Some k => match nth_error l k with
                  | Some x => Ok x
                  | None => Raise IndexError
                  end
      | None => Raise IndexError
      end
  | VStr s =>
      match str_getitem s i with
      | Ok c => Ok (VStr c)
      | Raise e => Raise e
      end
  | VDict _ => Raise KeyError
  | _ => Raise TypeError
  end.

Fixpoint lookup (k : string) (d : list (string * value)) : option value :=
  match d with
  | [] => None
  | (k', v) :: d' => if String.eqb k k' then Some v else lookup k d'
  end.

(** [v[k]] for a [str] key. *)
Definition getitem_str (v : value) (k : string) : result value :=
  match v with
  | VDict d => match lookup k d with
               | Some x => Ok x
               | None => Raise KeyError
               end
  | _ => Raise TypeError
  end.

(** [s == v] for a [str] [s]: only an equal [str] is equal to it. *)
Definition str_eq (s : string) (v : value) : bool :=
  match v with
  | VStr s' => String.eqb s s'
  | _ => false
  end.

End Py.

Import Py.

(** ** The session state

    [main] begins with six guards [if k not in st.session_state], one per
    key; they fire together on the first run of a browser session and never
    again.  The session state is thus either empty or holds all six keys. *)

Record session : Type := mkSession {
  questions : value;
  current_question : Z;
  score : Z;
  streak : Z;
  quiz_started : bool;
  answered : bool
}.

(** Lines 84-95: the state the guards build from an empty session state. *)
Definition fresh : session :=
  {| questions := VList [];
     current_question := 0;
     score := 0;
     streak := 0;
     quiz_started := false;
     answered := false |}.

Definition init (ss : option session) : session :=
  match ss with
  | None => fresh
  | Some s => s
  end.

Definition set_questions (v : value) (s : session) : session :=
  mkSession v (current_question s) (score s) (streak s) (quiz_started s) (answered s).
Definition set_current_question (z : Z) (s : session) : session :=
  mkSession (questions s) z (score s) (streak s) (quiz_started s) (answered s).
Definition set_score (z : Z) (s : session) : session :=
  mkSession (questions s) (current_question s) z (streak s) (quiz_started s) (answered s).
Definition set_streak (z : Z) (s : session) : session :=
  mkSession (questions s) (current_question s) (score s) z (quiz_started s) (answered s).
Definition set_quiz_started (b : bool) (s : session) : session :=
  mkSession (questions s) (current_question s) (score s) (streak s) b (answered s).
Definition set_answered (b : bool) (s : session) : session :=
  mkSession (questions s) (current_question s) (score s) (streak s) (quiz_started s) b.

(** ** Widgets: what a run reads and what it renders *)

Inductive button : Type :=
| GenerateQuestions
| RestartQuiz
| SubmitAnswer
| NextQuestion.

Definition button_eqb (a b : button) : bool :=
  match a, b with
  | GenerateQuestions, GenerateQuestions
  | RestartQuiz, RestartQuiz
  | SubmitAnswer, SubmitAnswer
  | NextQuestion, NextQuestion => true
  | _, _ => false
  end.

(** The position of the radio selection among the four options. *)
Inductive pick : Type := PickA | PickB | PickC | PickD.

Definition pick_index (p : pick) : nat :=
  match p with PickA => 0 | PickB => 1 | PickC => 2 | PickD => 3 end.

(** An uploaded file: its name, and what each of the three extractors
    ([extract_text_from_pdf], [extract_text_from_docx],
    [read().decode('utf-8')]) does on it: the text ([inr]), or the message of
    the exception it raises ([inl]). *)
Record upload : Type := mkUpload {
  name : string;
  as_pdf : string + string;
  as_docx : string + string;
  as_utf8 : string + string
}.

(** What the call to the generation service would do in this run:
    [generate_questions] raises (message of the exception), or returns the
    text [raw], on which [json.loads] either raises [JSONDecodeError]
    ([None]) or returns a value. *)
Inductive generation : Type :=
| GenRaises (msg : string)
| GenText (raw : string) (parsed : option value).

Record widgets : Type := mkWidgets {
  uploaded_file : option upload;
  num_questions : Z;
  clicked : option button;
  radio : pick;
  service : generation
}.

(** Lines 108-114: which extractor the file name selects, and its outcome;
    [None] when the extension is none of the four. *)
Definition extractor (f : upload) : option (string + string) :=
  if endswith (name f) ".pdf" then Some (as_pdf f)
  else if endswith (name f) ".docx" then Some (as_docx f)
  else if endswith (name f) ".txt" || endswith (name f) ".md" then Some (as_utf8 f)
  else None.

(** What a run puts on the page, one constructor per Streamlit call. *)
Inductive ui : Type :=
| st_title (s : string)
| st_file_uploader (s : string)
| st_slider (s : string)
| st_expander (s : string)
| st_write (s : string)
| st_button (b : button)
| st_spinner (s : string)
| st_error (s : string)
| st_code (s : string)
| st_success (s : string)
| st_markdown (s : string)
| st_progress (num den : Z)
| st_radio (options : list string) (disabled : bool)
| st_balloons
| st_info (s : string).

(** ** The script monad

    A run threads the session state and the page; it goes on to the next
    statement or stops: [return] from [main], [st.experimental_rerun()]
    (Streamlit's [RerunException], which derives from [BaseException] and so
    passes through [except Exception]), or an exception nobody catches, which
    Streamlit shows on the page.  The session state keeps whatever had been
    assigned before the stop. *)

Inductive stop : Type :=
| Returned
| Rerun
| Raised (e : exn).

Inductive flow (A : Type) : Type :=
| Go (a : A)
| Halt (c : stop).
Arguments Go {A} a.
Arguments Halt {A} c.

Record world : Type := mkWorld {
  state : session;
  page : list ui
}.

Definition script (A : Type) : Type := world -> flow A * world.

Definition ret {A} (a : A) : script A := fun w => (Go a, w).

Definition bind {A B} (m : script A) (k : A -> script B) : script B :=
  fun w =>
    match m w with
    | (Go a, w') => k a w'
    | (Halt c, w') => (Halt c, w')
    end.

Declare Scope script_scope.
Delimit Scope script_scope with script.
Notation "x <- m ;; k" := (bind m (fun x => k))
  (at level 61, m at next level, right associativity) : script_scope.
Notation "m ;; k" := (bind m (fun _ => k))
  (at level 61, right associativity) : script_scope.
Local Open Scope script_scope.

Definition get : script session := fun w => (Go (state w), w).
Definition modify (f : session -> session) : script unit :=
  fun w => (Go tt, mkWorld (f (state w)) (page w)).
Definition emit (u : ui) : script unit :=
  fun w => (Go tt, mkWorld (state w) (page w ++ [u])).
Definition halt {A} (c : stop) : script A := fun w => (Halt c, w).
Definition lift {A} (r : result A) : script A :=
  match r with
  | Ok a => ret a
  | Raise e => halt (Raised e)
  end.

(** [for x in l: ...] collecting one result per element. *)
Fixpoint for_each {A B} (f : A -> script B) (l : list A) : script (list B) :=
  match l with
  | [] => ret []
  | a :: l' => b <- f a ;; bs <- for_each f l' ;; ret (b :: bs)
  end.

(** ** The script *)

Section Script.

(** [str(v)] as an f-string interpolates it.  It is Python's own; nothing the
    script decides depends on it beyond the text shown. *)
Variable py_str : value -> string.

Section Run.

Variable inp : widgets.

(** [st.button(label)]: renders the button; [True] in the run its click
    triggered, [False] in every other run. *)
Definition button_clicked (b : button) : script bool :=
  emit (st_button b) ;;
  ret (match clicked inp with
       | Some c => button_eqb c b
       | None => false
       end).

Definition st_experimental_rerun {A} : script A := halt Rerun.
Definition return_ {A} : script A := halt Returned.

(** Lines 107-119: the text of the uploaded file, the extractor chosen by
    the file name; an exception of the extractor and an unknown extension
    each show an error and [return] from [main]. *)
Definition extract_text (f : upload) : script string :=
  match extractor f with
  | Some (inr text) => ret text
  | Some (inl e) => emit (st_error ("Failed to extract text: " ++ e)) ;; return_
  | None => emit (st_error "Unsupported file format") ;; return_
  end.

(** Lines 126-140: the body of [if st.button("Generate Questions")]. *)
Definition generate : script unit :=
  emit (st_spinner "Generating questions...") ;;
  match service inp with
  | GenRaises e => emit (st_error ("Error generating questions: " ++ e))
  | GenText questions_json None =>
      emit (st_error "Failed to parse generated questions. Showing raw output:") ;;
      emit (st_code questions_json)
  | GenText questions_json (Some questions) =>
      modify (set_questions questions) ;;
      modify (set_quiz_started true) ;;
      modify (set_current_question 0) ;;
      modify (set_score 0) ;;
      modify (set_streak 0) ;;
      modify (set_answered false) ;;
      st_experimental_rerun
  end.

(** Lines 105-140. *)
Definition upload_block (f : upload) : script unit :=
  text <- extract_text f ;;
  emit (st_expander "Preview Extracted Text (first 1000 chars)") ;;
  emit (st_write (str_take 1000 text
                  ++ (if (1000 <? str_len text)%nat then "..." else EmptyString))) ;;
  b <- button_clicked GenerateQuestions ;;
  if b then generate else ret tt.

Definition choice_labels : list string := ["A"; "B"; "C"; "D"].

(** Lines 176-191: the body of [if ... st.button("Submit Answer")]. *)
Definition submit (question : value) (user_choice : string) : script unit :=
  selected_label <- lift (str_getitem user_choice 0) ;;
  correct_label <- lift (getitem_str question "correct") ;;
  (if str_eq selected_label correct_label then
     emit (st_success "✅ Correct!") ;;
     modify (fun s => set_score (score s + 1) s) ;;
     modify (fun s => set_streak (streak s + 1) s) ;;
     emit st_balloons
   else
     emit (st_error ("❌ Incorrect. Correct answer: " ++ py_str correct_label ++ ".")) ;;
     modify (set_streak 0)) ;;
  explanation <- lift (getitem_str question "explanation") ;;
  emit (st_info ("Explanation: " ++ py_str explanation)) ;;
  modify (set_answered true).

(** Lines 146-153: the quiz is over. *)
Definition quiz_complete (n : Z) : script unit :=
  emit (st_success "🎉 Quiz complete!") ;;
  s <- get ;;
  emit (st_markdown ("**Final Score:** " ++ py_str (VInt (score s))
                     ++ " / " ++ py_str (VInt n))) ;;
  emit (st_markdown ("**Best Streak:** " ++ py_str (VInt (streak s)))) ;;
  b <- button_clicked RestartQuiz ;;
  (if b then modify (set_quiz_started false) ;; st_experimental_rerun
   else ret tt) ;;
  return_.

(** Lines 155-201: one question on the page. *)
Definition quiz_question (q_idx : Z) (questions : value) (n : Z) : script unit :=
  question <- lift (getitem_int questions q_idx) ;;
  emit (st_markdown ("### Question " ++ py_str (VInt (q_idx + 1))
                     ++ " of " ++ py_str (VInt n))) ;;
  text <- lift (getitem_str question "question") ;;
  emit (st_markdown ("**" ++ py_str text ++ "**")) ;;
  (* progress = q_idx / len(questions); st.progress takes a float in [0, 1] *)
  (if n =? 0 then halt (Raised ZeroDivisionError)
   else if q_idx <? 0 then halt (Raised StreamlitAPIException)
   else emit (st_progress q_idx n)) ;;
  options <- for_each (fun label =>
                         choices <- lift (getitem_str question "choices") ;;
                         choice <- lift (getitem_str choices label) ;;
                         ret (label ++ ". " ++ py_str choice))
                      choice_labels ;;
  s <- get ;;
  let disabled := answered s in
  emit (st_radio options disabled) ;;
  let user_choice := nth (pick_index (radio inp)) options EmptyString in
  s <- get ;;
  (if negb (answered s) then
     b <- button_clicked SubmitAnswer ;;
     if b then submit question user_choice else ret tt
   else ret tt) ;;
  s <- get ;;
  (if answered s then
     b <- button_clicked NextQuestion ;;
     if b then
       modify (fun s => set_current_question (current_question s + 1) s) ;;
       modify (set_answered false) ;;
       st_experimental_rerun
     else ret tt
   else ret tt) ;;
  s <- get ;;
  emit (st_markdown ("**Score:** " ++ py_str (VInt (score s))
                     ++ " / " ++ py_str (VInt n))) ;;
  emit (st_markdown ("**Current Streak:** " ++ py_str (VInt (streak s)))).

(** Lines 143-201: [if st.session_state.quiz_started: ...]. *)
Definition quiz_interface : script unit :=
  s <- get ;;
  let q_idx := current_question s in
  let questions := questions s in
  n <- lift (len questions) ;;
  if n <=? q_idx then quiz_complete n
  else quiz_question q_idx questions n.

(** Lines 79-201. *)
Definition main : script unit :=
  emit (st_title "🧠 Gamified Case-Based Quiz Generator") ;;
  emit (st_file_uploader "Upload your study material (PDF, TXT, DOCX, MD)") ;;
  emit (st_slider "Number of questions to generate") ;;
  s <- get ;;
  match uploaded_file inp with
  | Some f => if negb (quiz_started s) then upload_block f else ret tt
  | None => ret tt
  end ;;
  s <- get ;;
  if quiz_started s then quiz_interface else ret tt.

End Run.

(** One run of the script on a session state, from an empty page. *)
Definition run (ss : option session) (inp : widgets) : flow unit * world :=
  main inp (mkWorld (init ss) []).

(** The widget values of a run that no click triggered. *)
Definition no_click (inp : widgets) : widgets :=
  mkWidgets (uploaded_file inp) (num_questions inp) None (radio inp) (service inp).

(** One user interaction: the run it triggers and, when that run ends in
    [st.experimental_rerun()], the run that follows at once, which starts
    from the session state left behind and whose page replaces the first. *)
Definition interact (ss : option session) (inp : widgets) : flow unit * world :=
  let r := run ss inp in
  match fst r with
  | Halt Rerun => run (Some (state (snd r))) (no_click inp)
  | _ => r
  end.

(** The session state after an interaction, and the page it leaves. *)
Definition step (s : session) (inp : widgets) : session :=
  state (snd (interact (Some s) inp)).

Definition shown (s : session) (inp : widgets) : list ui :=
  page (snd (interact (Some s) inp)).

End Script.

(** ** The states of the quiz, read off the branches of [main]

    Line 143 tells a started quiz from one that is not; line 146 tells a
    finished quiz from a question in progress.  When [len(questions)] raises
    (the parsed JSON is a number, a boolean or [null]) the page shows the
    exception instead. *)

Inductive phase : Type :=
| NotStarted
| InProgress (i : Z)
| Completed
| Unrenderable.

Definition phase_of (s : session) : phase :=
  if quiz_started s then
    match len (questions s) with
    | Ok n => if n <=? current_question s then Completed
              else InProgress (current_question s)
    | Raise _ => Unrenderable
    end
  else NotStarted.

(** ** Question records

    What the script reads from a question: the keys [question], [choices]
    (itself indexed by the four labels), [correct] and [explanation]. *)

Definition is_ok {A} (r : result A) : bool :=
  match r with Ok _ => true | Raise _ => false end.

Definition has_fields (q : value) : bool :=
  is_ok (getitem_str q "question")
  && match getitem_str q "choices" with
     | Ok c => forallb (fun label => is_ok (getitem_str c label)) choice_labels
     | Raise _ => false
     end
  && is_ok (getitem_str q "correct")
  && is_ok (getitem_str q "explanation").

(** The label the radio selection stands for: [options[k]] begins with
    [choice_labels[k]]. *)
Definition pick_label (p : pick) : string :=
  nth (pick_index p) choice_labels EmptyString.

(** The session is at question [q] of the list [qs]: the quiz is started, the
    question set is [qs] and the current index points at [q]. *)
Definition at_question (s : session) (qs : list value) (q : value) : Prop :=
  quiz_started s = true /\ questions s = VList qs /\
  0 <= current_question s /\
  nth_error qs (Z.to_nat (current_question s)) = Some q.

(** A question set as the data model has it: a list of question records. *)
Definition valid_set (v : value) : bool :=
  match v with
  | VList qs => forallb has_fields qs
  | _ => false
  end.

(** The generation service answers with a question set whenever its answer
    parses at all. *)
Definition valid_input (inp : widgets) : Prop :=
  match service inp with
  | GenText _ (Some v) => valid_set v = true
  | _ => True
  end.

Definition is_error (u : ui) : bool :=
  match u with st_error _ => true | _ => false end.

Definition is_code (u : ui) : bool :=
  match u with st_code _ => true | _ => false end.

(** The number of questions answered so far. *)
Definition answered_count (s : session) : Z :=
  current_question s + (if answered s then 1 else 0).

(** ** The transitions of the specification's state machine

    [Load], [Restart], [SubmitAnswer] (right or wrong) and [Advance] as
    updates of the session state, each with the guard under which the script
    performs it. *)
Inductive transition (s : session) : session -> Prop :=
| T_none : transition s s
| T_load v :
    quiz_started s = false -> valid_set v = true ->
    transition s (mkSession v 0 0 0 true false)
| T_restart :
    phase_of s = Completed ->
    transition s (set_quiz_started false s)
| T_correct :
    phase_of s = InProgress (current_question s) -> answered s = false ->
    transition s (set_answered true
                    (set_streak (streak s + 1) (set_score (score s + 1) s)))
| T_wrong :
    phase_of s = InProgress (current_question s) -> answered s = false ->
    transition s (set_answered true (set_streak 0 s))
| T_next :
    phase_of s = InProgress (current_question s) -> answered s = true ->
    transition s (set_answered false
                    (set_current_question (current_question s + 1) s)).

(** The session states a browser session can be in: the one the first run
    builds, and whatever an interaction makes of a reachable one. *)
Inductive reachable (py_str : value -> string) : session -> Prop :=
| reach_fresh : reachable py_str fresh
| reach_step s inp :
    reachable py_str s -> valid_input inp ->
    reachable py_str (step py_str s inp).

(** What the session state satisfies throughout: the question set is a list
    of question records, the index stays within it, and the counters are
    ordered [0 <= streak <= score <= answered_count]. *)
Definition inv (s : session) : Prop :=
  valid_set (questions s) = true /\
  (exists n, len (questions s) = Ok n /\ 0 <= current_question s <= n) /\
  0 <= streak s <= score s /\
  score s <= answered_count s.

(** Lines 80-103 and 146-150: the page of a finished quiz of [n] questions. *)
Definition completed_page (py_str : value -> string) (s : session) (n : Z)
  : list ui :=
  [st_title "🧠 Gamified Case-Based Quiz Generator";
   st_file_uploader "Upload your study material (PDF, TXT, DOCX, MD)";
   st_slider "Number of questions to generate";
   st_success "🎉 Quiz complete!";
   st_markdown ("**Final Score:** " ++ py_str (VInt (score s))
                ++ " / " ++ py_str (VInt n));
   st_markdown ("**Best Streak:** " ++ py_str (VInt (streak s)));
   st_button RestartQuiz].

(** ** Playing a whole quiz *)

(** The radio position of the label a question names as correct. *)
Definition correct_pick (q : value) : option pick :=
  match getitem_str q "correct" with
  | Ok (VStr l) =>
      if String.eqb l "A" then Some PickA
      else if String.eqb l "B" then Some PickB
      else if String.eqb l "C" then Some PickC
      else if String.eqb l "D" then Some PickD
      else None
  | _ => None
  end.

(** A question record whose correct label is one of the four on offer. *)
Definition answerable (q : value) : bool :=
  has_fields q
  && match correct_pick q with Some _ => true | None => false end.

Section Play.

Variables (f : upload) (n : Z) (g : generation).

Definition press (b : button) (p : pick) : widgets :=
  mkWidgets (Some f) n (Some b) p g.

(** Select the correct option and submit, then go to the next question. *)
Definition answer_correctly (q : value) : list widgets :=
  [press SubmitAnswer (match correct_pick q with Some p => p | None => PickA end);
   press NextQuestion PickA].

Definition play_perfectly (raw : string) (qs : list value) : list widgets :=
  mkWidgets (Some f) n (Some GenerateQuestions) PickA (GenText raw (Some (VList qs)))
  :: flat_map answer_correctly qs.

End Play.

(** ** Concrete runs *)

Module Examples.

(** [str(v)] where it is plain: a [str] is itself, an [int] its decimal
    digits, [None] and the booleans their names.  The examples below
    interpolate nothing else. *)
Definition str (v : value) : string :=
  match v with
  | VStr s => s
  | VInt z => NilZero.string_of_int (Z.to_int z)
  | VNone => "None"
  | VBool true => "True"
  | VBool false => "False"
  | _ => EmptyString
  end.

Definition mk_question (text a b c d correct explanation : string) : value :=
  VDict [("question", VStr text);
         ("choices", VDict [("A", VStr a); ("B", VStr b); ("C", VStr c); ("D", VStr d)]);
         ("correct", VStr correct);
         ("explanation", VStr explanation)].

Definition notes : upload :=
  mkUpload "notes.txt" (inl "not a PDF") (inl "not a DOCX") (inr "Sepsis. Shock.").

Definition idle : generation := GenRaises "unused".

Definition widgets_of (c : option button) (r : pick) (g : generation) : widgets :=
  mkWidgets (Some notes) 5 c r g.

Definition load (raw : string) (v : value) : widgets :=
  widgets_of (Some GenerateQuestions) PickA (GenText raw (Some v)).
Definition garbled (raw : string) : widgets :=
  widgets_of (Some GenerateQuestions) PickA (GenText raw None).
Definition answer (p : pick) : widgets := widgets_of (Some SubmitAnswer) p idle.
Definition next : widgets := widgets_of (Some NextQuestion) PickA idle.
Definition restart : widgets := widgets_of (Some RestartQuiz) PickA idle.

Definition play (s : session) (l : list widgets) : session :=
  fold_left (step str) l s.

Definition q1 : value := mk_question "Case 1" "a" "b" "c" "d" "B" "because".
Definition abc : list value :=
  [mk_question "Case 1" "a" "b" "c" "d" "A" "e1";
   mk_question "Case 2" "a" "b" "c" "d" "B" "e2";
   mk_question "Case 3" "a" "b" "c" "d" "C" "e3"].

(** The one-question quiz, loaded; answered right; answered wrong; over. *)
Definition asked : session := mkSession (VList [q1]) 0 0 0 true false.
Definition right : session := mkSession (VList [q1]) 0 1 1 true true.
Definition wrong : session := mkSession (VList [q1]) 0 0 0 true true.
Definition over : session := mkSession (VList [q1]) 1 1 1 true false.

End Examples.

(** ** More of the page *)

(** Lines 80-103: what every run renders first. *)
Definition page_head : list ui :=
  [st_title "🧠 Gamified Case-Based Quiz Generator";
   st_file_uploader "Upload your study material (PDF, TXT, DOCX, MD)";
   st_slider "Number of questions to generate"].

(** Line 122: the preview of the extracted text. *)
Definition preview (text : string) : string :=
  str_take 1000 text ++ (if (1000 <? str_len text)%nat then "..." else EmptyString).

Definition is_enabled_radio (u : ui) : bool :=
  match u with st_radio _ false => true | _ => false end.

Definition raises (r : flow unit * world) : bool :=
  match fst r with Halt (Raised _) => true | _ => false end.


(** The last byte of a file name. *)
Fixpoint last_char (s : string) : option ascii :=
  match s with
  | EmptyString => None
  | String a EmptyString => Some a
  | String _ t => last_char t
  end.


(** Any answer, then the next question. *)
Definition answer_with (f : upload) (n : Z) (g : generation) (p : pick)
  : list widgets :=
  [press f n g SubmitAnswer p; press f n g NextQuestion p].

Module MoreExamples.

(** The session after the generation service answered [5]. *)
Definition five : session := mkSession (VInt 5) 0 0 0 true false.

Definition scan : upload :=
  mkUpload "scan.jpeg" (inl "not a PDF") (inl "not a DOCX") (inl "not UTF-8").

Definition broken : upload :=
  mkUpload "notes.pdf" (inl "EOF marker not found") (inl "not a DOCX")
    (inl "not UTF-8").

Definition with_file (f : upload) (c : option button) (g : generation)
  : widgets :=
  mkWidgets (Some f) 5 c PickA g.

End MoreExamples.


(** * The other functions of [app.py] *)

(** ** More of [str] *)

(** The line feed, and the double quote. *)
Definition nl : string := String "010"%char EmptyString.
Definition dq : string := String "034"%char EmptyString.
Definition quoted (s : string) : string := dq ++ s ++ dq.

(** The characters of a [str]: each byte with the continuation bytes that
    follow it. *)
Fixpoint chars (s : string) : list string :=
  match s with
  | EmptyString => []
  | String a t =>
      match t with
      | EmptyString => [String a EmptyString]
      | String b _ =>
          if is_continuation b then
            match chars t with
            | c :: cs => String a c :: cs
            | [] => [String a EmptyString]
            end
          else String a EmptyString :: chars t
      end
  end.

Fixpoint bytes (l : list nat) : string :=
  match l with
  | [] => EmptyString
  | n :: l' => String (ascii_of_nat n) (bytes l')
  end.

(** The characters [str.strip()] removes: U+0009 to U+000D, U+001C to
    U+0020, U+0085, U+00A0, U+1680, U+2000 to U+200A, U+2028, U+2029,
    U+202F, U+205F and U+3000, in UTF-8. *)
Definition whitespace : list string :=
  map bytes
    [[9]; [10]; [11]; [12]; [13]; [28]; [29]; [30]; [31]; [32];
     [194; 133]; [194; 160]; [225; 154; 128];
     [226; 128; 128]; [226; 128; 129]; [226; 128; 130]; [226; 128; 131];
     [226; 128; 132]; [226; 128; 133]; [226; 128; 134]; [226; 128; 135];
     [226; 128; 136]; [226; 128; 137]; [226; 128; 138];
     [226; 128; 168]; [226; 128; 169]; [226; 128; 175];
     [226; 129; 159]; [227; 128; 128]]%nat.

Definition is_space (c : string) : bool := existsb (String.eqb c) whitespace.

Fixpoint drop_while {A} (p : A -> bool) (l : list A) : list A :=
  match l with
  | [] => []
  | a :: l' => if p a then drop_while p l' else l
  end.

(** The [str] of a list of characters. *)
Definition implode (cs : list string) : string :=
  fold_right append EmptyString cs.

(** [s.strip()]: the characters of [s] without the whitespace at either
    end. *)
Definition stripped (cs : list string) : list string :=
  rev (drop_while is_space (rev (drop_while is_space cs))).

Definition strip (s : string) : string := implode (stripped (chars s)).

Fixpoint all_continuation (s : string) : bool :=
  match s with
  | EmptyString => true
  | String a t => is_continuation a && all_continuation t
  end.

(** One character: a byte and the continuation bytes after it. *)
Definition is_char (c : string) : bool :=
  match c with
  | EmptyString => false
  | String _ r => all_continuation r
  end.

(** A character that begins with a byte of its own. *)
Definition is_start (c : string) : bool :=
  match c with
  | EmptyString => false
  | String a r => negb (is_continuation a) && all_continuation r
  end.

(** A list of characters as [chars] yields them: the first may begin with
    any byte, the others begin with a byte of their own. *)
Definition well_split (cs : list string) : bool :=
  match cs with
  | [] => true
  | c :: cs' => is_char c && forallb is_start cs'
  end.

(** ** The extractors, lines 16-30

    What the libraries give is taken as it comes: [PyPDF2.PdfReader(file)]
    and [docx.Document(file)] either raise ([inl], with the message) or
    open the document; so does [page.extract_text()] for each page. *)

Definition pdf_file : Type := string + list (string + string).
Definition docx_file : Type := string + list string.

(** Lines 18-22: the loop over the pages, [text] being the text so far. *)
Fixpoint read_pages (pages : list (string + string)) (text : string)
  : string + string :=
  match pages with
  | [] => inr text
  | inl e :: _ => inl e
  | inr page_text :: pages' =>
      read_pages pages'
        (match page_text with
         | EmptyString => text
         | _ => text ++ page_text ++ nl
         end)
  end.

Definition extract_text_from_pdf (file : pdf_file) : string + string :=
  match file with
  | inl e => inl e
  | inr pages =>
      match read_pages pages EmptyString with
      | inl e => inl e
      | inr text => inr (strip text)
      end
  end.

(** [if page_text:] for a [str]. *)
Definition has_text (page_text : string) : bool :=
  match page_text with
  | EmptyString => false
  | _ => true
  end.

Definition extract_text_from_docx (file : docx_file) : string + string :=
  match file with
  | inl e => inl e
  | inr paragraphs => inr (String.concat nl paragraphs)
  end.

(** An uploaded file, given what the libraries make of it. *)
Definition uploaded (name : string) (pdf : pdf_file) (docx : docx_file)
    (utf8 : string + string) : upload :=
  mkUpload name (extract_text_from_pdf pdf) (extract_text_from_docx docx) utf8.

(** The lines of a text: what lies between its line feeds. *)
Fixpoint lines_from (line : string) (s : string) : list string :=
  match s with
  | EmptyString => [line]
  | String a t =>
      if Ascii.eqb a "010" then line :: lines_from EmptyString t
      else lines_from (line ++ String a EmptyString) t
  end.

Definition lines (s : string) : list string := lines_from EmptyString s.

Fixpoint no_line_feed (s : string) : bool :=
  match s with
  | EmptyString => true
  | String a t => negb (Ascii.eqb a "010") && no_line_feed t
  end.

(** ** [countdown_timer], lines 72-77 *)

(** [range(start, stop, -1)] *)
Definition range_down (start stop : Z) : list Z :=
  map (fun k => start - Z.of_nat k) (seq 0 (Z.to_nat (start - stop))).

(** What the timer does, in order: it writes into its placeholder, or it
    sleeps. *)
Inductive tick : Type :=
| placeholder_markdown (s : string)
| time_sleep (seconds : Z).

Definition countdown_timer (py_str : value -> string) (seconds : Z)
  : list tick :=
  flat_map (fun i =>
              [placeholder_markdown ("⏳ Time left: " ++ py_str (VInt i) ++ " seconds");
               time_sleep 1])
           (range_down seconds 0)
  ++ [placeholder_markdown "⌛ Time's up! Moving to next question."].

(** What the placeholder shows in the end: the last thing written. *)
Definition placeholder_of (l : list tick) : option string :=
  fold_left (fun shown t => match t with
                            | placeholder_markdown s => Some s
                            | time_sleep _ => shown
                            end) l None.

Definition slept (l : list tick) : Z :=
  fold_left (fun total t => match t with
                            | placeholder_markdown _ => total
                            | time_sleep n => total + n
                            end) l 0.

(** ** [generate_questions], lines 32-70 *)

Record chat_message : Type := mkMessage {
  role : string;
  content : string
}.

Record chat_request : Type := mkRequest {
  model : string;
  messages : list chat_message;
  temperature : spec_float;
  max_tokens : Z
}.

(** Lines 33-60. *)
Definition prompt (py_str : value -> string) (text : string)
    (num_questions : Z) : string :=
  String.concat nl
    [EmptyString;
     "You are a medical exam question writer. Create " ++ py_str (VInt num_questions)
     ++ " challenging, case-based, USMLE-style questions based on the following content.";
     "Each question should have:";
     "- A clinical case scenario as 'question'";
     "- 4 answer choices labeled A, B, C, D";
     "- The letter of the correct answer as 'correct'";
     "- A brief explanation of the answer as 'explanation'";
     EmptyString;
     "Format the output as a JSON array with this structure:";
     EmptyString;
     "[";
     "  {";
     "    " ++ quoted "question" ++ ": " ++ quoted "Case scenario text here..." ++ ",";
     "    " ++ quoted "choices" ++ ": {";
     "      " ++ quoted "A" ++ ": " ++ quoted "Answer choice A" ++ ",";
     "      " ++ quoted "B" ++ ": " ++ quoted "Answer choice B" ++ ",";
     "      " ++ quoted "C" ++ ": " ++ quoted "Answer choice C" ++ ",";
     "      " ++ quoted "D" ++ ": " ++ quoted "Answer choice D";
     "    },";
     "    " ++ quoted "correct" ++ ": " ++ quoted "A" ++ ",";
     "    " ++ quoted "explanation" ++ ": " ++ quoted "Explanation text here...";
     "  },";
     "  ...";
     "]";
     EmptyString;
     "Content:";
     text;
     EmptyString].

(** Lines 61-69: the request; [0.7] is the double 6305039478318694 * 2^-53. *)
Definition chat_completion (py_str : value -> string) (text : string)
    (num_questions : Z) : chat_request :=
  mkRequest "gpt-4"
    [mkMessage "system" "You are a board exam question generator.";
     mkMessage "user" (prompt py_str text num_questions)]
    (S754_finite false 6305039478318694 (-53))
    1500.

(** Line 70: [response['choices'][0]['message']['content']]. *)
Definition response_content (response : value) : result value :=
  match getitem_str response "choices" with
  | Raise e => Raise e
  | Ok choices =>
      match getitem_int choices 0 with
      | Raise e => Raise e
      | Ok choice =>
          match getitem_str choice "message" with
          | Raise e => Raise e
          | Ok message => getitem_str message "content"
          end
      end
  end.

(** [generate_questions]: the service, [create], raises ([inl], with the
    message) or answers with a response. *)
Definition generate_questions (py_str : value -> string)
    (create : chat_request -> string + value) (text : string)
    (num_questions : Z) : string + result value :=
  match create (chat_completion py_str text num_questions) with
  | inl e => inl e
  | inr response => inr (response_content response)
  end.


Module Replies.

(** A response of the service with two choices. *)
Definition choices : list value :=
  [VDict [("message", VDict [("role", VStr "assistant");
                             ("content", VStr "[]")])];
   VDict [("message", VDict [("content", VStr "other")])]].

Definition fields : list (string * value) :=
  [("id", VStr "chatcmpl-1"); ("choices", VList choices)].

End Replies.

(** The [Restart Quiz] button on a page. *)
Definition is_restart_button (u : ui) : bool :=
  match u with st_button RestartQuiz => true | _ => false end.

(** ** What a run can do to any session state

    The script checks nothing of what it loads.  On a question record that
    lacks a key, line 189 can raise after lines 182-187 have written the
    counters and before line 191 marks the question answered. *)

(** The current question can be read and has the keys the script reads. *)
Definition current_fields (s : session) : bool :=
  match getitem_int (questions s) (current_question s) with
  | Ok q => has_fields q
  | Raise _ => false
  end.

Inductive moves (s : session) : session -> Prop :=
| M_none : moves s s
| M_load v :
    quiz_started s = false ->
    moves s (mkSession v 0 0 0 true false)
| M_restart :
    phase_of s = Completed ->
    moves s (set_quiz_started false s)
| M_correct :
    phase_of s = InProgress (current_question s) -> 0 <= current_question s ->
    answered s = false -> current_fields s = true ->
    moves s (set_answered true
               (set_streak (streak s + 1) (set_score (score s + 1) s)))
| M_wrong :
    phase_of s = InProgress (current_question s) -> 0 <= current_question s ->
    answered s = false -> current_fields s = true ->
    moves s (set_answered true (set_streak 0 s))
| M_next :
    phase_of s = InProgress (current_question s) -> 0 <= current_question s ->
    answered s = true ->
    moves s (set_answered false
               (set_current_question (current_question s + 1) s))
| M_counted :
    phase_of s = InProgress (current_question s) -> 0 <= current_question s ->
    answered s = false -> current_fields s = false ->
    moves s (set_streak (streak s + 1) (set_score (score s + 1) s))
| M_reset :
    phase_of s = InProgress (current_question s) -> 0 <= current_question s ->
    answered s = false -> current_fields s = false ->
    moves s (set_streak 0 s).

(** The session states a browser session can be in when nothing is
    assumed of what the generation service answers. *)
Inductive reachable_any (py_str : value -> string) : session -> Prop :=
| any_fresh : reachable_any py_str fresh
| any_step s inp :
    reachable_any py_str s -> reachable_any py_str (step py_str s inp).

(** The quiz is held up at a question that cannot be answered: the record
    cannot be read or lacks a key, so no run gets as far as line 191. *)
Definition held_up (s : session) : Prop :=
  quiz_started s = true /\ answered s = false /\
  phase_of s = InProgress (current_question s) /\ current_fields s = false.

(** What holds of the session state whatever was loaded. *)
Definition inv_any (s : session) : Prop :=
  0 <= current_question s /\
  0 <= streak s <= score s /\
  (answered s = true ->
   phase_of s = InProgress (current_question s) /\ current_fields s = true) /\
  (forall n, len (questions s) = Ok n -> current_question s <= n) /\
  (score s <= answered_count s \/ held_up s).

Module Unchecked.

(** A question record as the service may send it: no [explanation]. *)
Definition bare : value :=
  VDict [("question", VStr "Case");
         ("choices", VDict [("A", VStr "a"); ("B", VStr "b");
                            ("C", VStr "c"); ("D", VStr "d")]);
         ("correct", VStr "A")].

(** The quiz loaded with that record alone. *)
Definition bare_asked : session := mkSession (VList [bare]) 0 0 0 true false.

(** The right answer to it, submitted twice. *)
Definition twice : list widgets :=
  [Examples.load "..." (VList [bare]); Examples.answer PickA;
   Examples.answer PickA].

(** Three questions played: right, wrong, right. *)
Definition mixed : list widgets :=
  [Examples.load "..." (VList Examples.abc);
   Examples.answer PickA; Examples.next;
   Examples.answer PickD; Examples.next;
   Examples.answer PickC; Examples.next].

End Unchecked.

(** * Proofs *)

(** ** Evaluating a run symbolically *)

Ltac unfold_script :=
  cbv [run main upload_block extract_text generate quiz_interface quiz_complete
       quiz_question submit button_clicked for_each choice_labels
       st_experimental_rerun return_ bind ret get modify emit halt lift init
       set_questions set_current_question set_score set_streak
       set_quiz_started set_answered
       state page fst snd
       questions current_question score streak quiz_started answered
       uploaded_file clicked radio service num_questions negb button_eqb
       phase_of].

(** Case analysis on the innermost scrutinee the goal is stuck on. *)
Ltac split_match :=
  match goal with
  | |- context [match ?x with _ => _ end] =>
      lazymatch x with
      | context [match _ with _ => _ end] => fail
      | _ => destruct x eqn:?
      end
  end.

Lemma user_choice_head (p : pick) (a b c d : string) :
  str_getitem
    (nth (pick_index p)
       ["A" ++ ". " ++ a; "B" ++ ". " ++ b; "C" ++ ". " ++ c; "D" ++ ". " ++ d]
       EmptyString) 0
  = Ok (pick_label p).
Proof. destruct p; reflexivity. Qed.

(** Rewriting with what is known about the data of the run. *)
Ltac use_facts :=
  repeat match goal with
  | H : getitem_str _ _ = _ |- _ => rewrite H
  | H : getitem_int _ _ = _ |- _ => rewrite H
  | H : len _ = _ |- _ => rewrite H
  | H : extractor _ = _ |- _ => rewrite H
  | H : (_ <=? _) = _ |- _ => rewrite H
  | H : (_ <? _) = _ |- _ => rewrite H
  | H : (_ =? _) = _ |- _ => rewrite H
  | |- _ => rewrite user_choice_head
  end.

Ltac fields :=
  cbn [questions current_question score streak quiz_started answered
       uploaded_file clicked radio service num_questions] in *.

Ltac crunch :=
  unfold_script;
  repeat (first [progress use_facts | split_match]; unfold_script).

(** The conclusions about a run are conjunctions of equations that hold by
    computation once the run is evaluated. *)
Ltac finish := repeat split; try reflexivity; try discriminate; try congruence.

Lemma getitem_int_list (qs : list value) (i : Z) (q : value) :
  0 <= i -> nth_error qs (Z.to_nat i) = Some q ->
  getitem_int (VList qs) i = Ok q /\ i < Z.of_nat (List.length qs).
Proof.
  intros Hi Hn.
  assert (Hlt : (Z.to_nat i < List.length qs)%nat)
    by (apply nth_error_Some; congruence).
  assert (i < Z.of_nat (List.length qs)) by lia.
  split; [|assumption].
  unfold getitem_int, norm_index.
  replace (0 <=? i) with true by (symmetry; apply Z.leb_le; lia).
  replace (i <? Z.of_nat (List.length qs)) with true
    by (symmetry; apply Z.ltb_lt; lia).
  cbn. now rewrite Hn.
Qed.

Lemma has_fields_inv (q : value) :
  has_fields q = true ->
  exists t c a b c' d cl ex,
    getitem_str q "question" = Ok t /\ getitem_str q "choices" = Ok c /\
    getitem_str c "A" = Ok a /\ getitem_str c "B" = Ok b /\
    getitem_str c "C" = Ok c' /\ getitem_str c "D" = Ok d /\
    getitem_str q "correct" = Ok cl /\ getitem_str q "explanation" = Ok ex.
Proof.
  unfold has_fields, choice_labels. cbn [forallb].
  destruct (getitem_str q "question") as [t|]; [|discriminate].
  destruct (getitem_str q "choices") as [c|]; [|discriminate].
  destruct (getitem_str c "A") as [a|] eqn:HA; [|discriminate].
  destruct (getitem_str c "B") as [b|] eqn:HB; [|discriminate].
  destruct (getitem_str c "C") as [c'|] eqn:HC; [|discriminate].
  destruct (getitem_str c "D") as [d|] eqn:HD; [|discriminate].
  destruct (getitem_str q "correct") as [cl|]; [|discriminate].
  destruct (getitem_str q "explanation") as [ex|]; [|discriminate].
  intros _. exists t, c, a, b, c', d, cl, ex. now rewrite HA, HB, HC, HD.
Qed.

(** What is known of a run on question [q] of the list [qs]. *)
Ltac question_facts Hat Hf :=
  let Hst := fresh "Hst" in let Hqs := fresh "Hqs" in
  let Hi := fresh "Hi" in let Hn := fresh "Hn" in
  destruct Hat as (Hst & Hqs & Hi & Hn);
  match type of Hn with
  | nth_error ?qs (Z.to_nat ?i) = Some ?q =>
      let Hg := fresh "Hg" in let Hlt := fresh "Hlt" in
      destruct (getitem_int_list qs i q Hi Hn) as [Hg Hlt];
      assert ((Z.of_nat (List.length qs) <=? i) = false) by (apply Z.leb_gt; lia);
      assert ((Z.of_nat (List.length qs) =? 0) = false) by (apply Z.eqb_neq; lia);
      assert ((i <? 0) = false) by (apply Z.ltb_ge; lia);
      assert (len (VList qs) = Ok (Z.of_nat (List.length qs))) by reflexivity
  end;
  destruct (has_fields_inv _ Hf) as (? & ? & ? & ? & ? & ? & ? & ? & ? & ? & ? & ? & ? & ? & ? & ?).

Lemma str_eq_spec (l : string) (c : value) :
  str_eq l c = true <-> c = VStr l.
Proof.
  destruct c; cbn; try (split; [discriminate|intros [=]]).
  rewrite String.eqb_eq. split; [now intros ->|now intros [= ->]].
Qed.

(** A valid question set has a question record at every index within it. *)
Lemma valid_question (qs : list value) (i : Z) :
  forallb has_fields qs = true -> 0 <= i < Z.of_nat (List.length qs) ->
  exists q, nth_error qs (Z.to_nat i) = Some q /\ has_fields q = true.
Proof.
  intros Hv Hi.
  destruct (nth_error qs (Z.to_nat i)) as [q|] eqn:E.
  - exists q. split; [reflexivity|].
    apply nth_error_In in E. rewrite forallb_forall in Hv. now apply Hv.
  - apply nth_error_None in E. lia.
Qed.

(** Which transition a run has performed, read off the two states. *)
Ltac solve_transition :=
  solve [ apply T_none
        | apply T_load; [reflexivity | assumption]
        | apply T_restart; unfold_script; use_facts; reflexivity
        | apply T_correct; [unfold_script; use_facts; reflexivity | reflexivity]
        | apply T_wrong; [unfold_script; use_facts; reflexivity | reflexivity]
        | apply T_next; [unfold_script; use_facts; reflexivity | reflexivity] ].

Lemma phase_in_progress (s : session) (i : Z) :
  phase_of s = InProgress i ->
  quiz_started s = true /\
  exists n, len (questions s) = Ok n /\ current_question s < n.
Proof.
  unfold phase_of.
  destruct (quiz_started s); [|discriminate].
  destruct (len (questions s)) as [n|]; [|discriminate].
  destruct (n <=? current_question s) eqn:E; [discriminate|].
  intros _. split; [reflexivity|]. exists n. split; [reflexivity|].
  now apply Z.leb_gt.
Qed.

Lemma valid_set_len (v : value) :
  valid_set v = true -> exists n, len v = Ok n /\ 0 <= n.
Proof.
  destruct v; try discriminate. intros _.
  eexists. split; [reflexivity|]. apply Nat2Z.is_nonneg.
Qed.

Lemma inv_transition (s s' : session) :
  inv s -> transition s s' -> inv s'.
Proof.
  intros (Hv & (n & Hn & Hi) & Hs & Hc) Ht.
  unfold answered_count in Hc.
  inversion Ht as [ | v Hq Hv' | Hp | Hp Ha | Hp Ha | Hp Ha ]; subst; clear Ht.
  - unfold inv, answered_count. eauto 6.
  - destruct (valid_set_len v Hv') as (m & Hm & Hm0).
    unfold inv, answered_count; cbn. repeat split; eauto; try lia.
    exists m. repeat split; auto; lia.
  - unfold inv, answered_count; cbn. eauto 6.
  - apply phase_in_progress in Hp. destruct Hp as (_ & m & Hm & Hlt).
    rewrite Ha in Hc.
    unfold inv, answered_count; cbn. repeat split; eauto; lia.
  - apply phase_in_progress in Hp. destruct Hp as (_ & m & Hm & Hlt).
    rewrite Ha in Hc.
    unfold inv, answered_count; cbn. repeat split; eauto; lia.
  - apply phase_in_progress in Hp. destruct Hp as (_ & m & Hm & Hlt).
    rewrite Ha in Hc.
    unfold inv, answered_count; cbn. repeat split; auto; try lia.
    exists m. repeat split; auto; lia.
Qed.

Lemma inv_fresh : inv fresh.
Proof.
  unfold inv, answered_count; cbn. repeat split; try lia.
  exists 0. repeat split; lia.
Qed.

Lemma transition_new_question (s s' : session) :
  transition s s' ->
  current_question s' <> current_question s \/ questions s' <> questions s
  \/ (quiz_started s = false /\ quiz_started s' = true) ->
  answered s' = false.
Proof.
  intros Ht Hnew.
  inversion Ht; subst; cbn in *; try reflexivity;
    destruct Hnew as [Hnew|[Hnew|[Hoff Hon]]]; try congruence;
    match goal with
    | Hp : phase_of _ = _ |- _ =>
        unfold phase_of in Hp; rewrite Hoff in Hp; discriminate
    end.
Qed.


Lemma correct_pick_label (q : value) (p : pick) :
  correct_pick q = Some p ->
  getitem_str q "correct" = Ok (VStr (pick_label p)).
Proof.
  unfold correct_pick.
  destruct (getitem_str q "correct") as [[| | | |l| |]|]; try discriminate.
  destruct (String.eqb l "A") eqn:EA;
    [apply String.eqb_eq in EA; intros [= <-]; now subst|].
  destruct (String.eqb l "B") eqn:EB;
    [apply String.eqb_eq in EB; intros [= <-]; now subst|].
  destruct (String.eqb l "C") eqn:EC;
    [apply String.eqb_eq in EC; intros [= <-]; now subst|].
  destruct (String.eqb l "D") eqn:ED;
    [apply String.eqb_eq in ED; intros [= <-]; now subst|].
  discriminate.
Qed.

Section Facts.

Variable py_str : value -> string.

(** A run that no click triggered changes nothing and asks for no rerun. *)
Lemma run_idle (s : session) (inp : widgets) :
  clicked inp = None ->
  state (snd (run py_str (Some s) inp)) = s
  /\ fst (run py_str (Some s) inp) <> Halt Rerun.
Proof.
  intros Hc. destruct s as [qs i sc st started ans].
  destruct inp as [up nq c r g]. cbn in Hc. subst c.
  crunch; finish.
Qed.

(** The state after an interaction is the state after its first run. *)
Lemma step_state (s : session) (inp : widgets) :
  step py_str s inp = state (snd (run py_str (Some s) inp)).
Proof.
  unfold step, interact.
  destruct (run py_str (Some s) inp) as [[a|[| |e]] w]; cbn [fst snd];
    try reflexivity.
  now apply run_idle.
Qed.

(** The page after an interaction whose run does not ask for a rerun. *)
Lemma shown_go (s : session) (inp : widgets) :
  fst (run py_str (Some s) inp) <> Halt Rerun ->
  shown py_str s inp = page (snd (run py_str (Some s) inp)).
Proof.
  unfold shown, interact.
  destruct (run py_str (Some s) inp) as [[a|[| |e]] w]; cbn [fst snd];
    congruence.
Qed.

Lemma shown_rerun (s : session) (inp : widgets) :
  fst (run py_str (Some s) inp) = Halt Rerun ->
  shown py_str s inp
  = page (snd (run py_str (Some (step py_str s inp)) (no_click inp))).
Proof.
  intros H. rewrite step_state. unfold shown, interact. now rewrite H.
Qed.

(** [SubmitAnswer] on a question not yet answered. *)
Lemma run_submit (s : session) (inp : widgets) (qs : list value) (q c : value) :
  at_question s qs q -> has_fields q = true -> answered s = false ->
  getitem_str q "correct" = Ok c -> clicked inp = Some SubmitAnswer ->
  fst (run py_str (Some s) inp) = Go tt /\
  state (snd (run py_str (Some s) inp)) =
    (if str_eq (pick_label (radio inp)) c
     then set_answered true (set_streak (streak s + 1) (set_score (score s + 1) s))
     else set_answered true (set_streak 0 s)).
Proof.
  intros Hat Hf Ha Hc Hcl.
  question_facts Hat Hf.
  destruct s as [qv i sc st started ans]. destruct inp as [up nq cl r g].
  fields. subst.
  crunch; finish.
Qed.

(** [Next Question] on an answered question. *)
Lemma run_next (s : session) (inp : widgets) (qs : list value) (q : value) :
  at_question s qs q -> has_fields q = true -> answered s = true ->
  clicked inp = Some NextQuestion ->
  fst (run py_str (Some s) inp) = Halt Rerun /\
  state (snd (run py_str (Some s) inp)) =
    set_answered false (set_current_question (current_question s + 1) s).
Proof.
  intros Hat Hf Ha Hcl.
  question_facts Hat Hf.
  destruct s as [qv i sc st started ans]. destruct inp as [up nq cl r g].
  fields. subst.
  crunch; finish.
Qed.

(** [Generate Questions] when the service answers with text that parses. *)
Lemma run_load (s : session) (inp : widgets) (f : upload) (text raw : string)
    (v : value) :
  quiz_started s = false -> uploaded_file inp = Some f ->
  extractor f = Some (inr text) -> clicked inp = Some GenerateQuestions ->
  service inp = GenText raw (Some v) ->
  fst (run py_str (Some s) inp) = Halt Rerun /\
  state (snd (run py_str (Some s) inp)) = mkSession v 0 0 0 true false.
Proof.
  intros Hs Hu He Hc Hg.
  destruct s as [qv i sc st started ans]. destruct inp as [up nq cl r g].
  fields. subst.
  crunch; finish.
Qed.

(** [Generate Questions] when the text of the service does not parse. *)
Lemma run_garbled (s : session) (inp : widgets) (f : upload) (text raw : string) :
  quiz_started s = false -> uploaded_file inp = Some f ->
  extractor f = Some (inr text) -> clicked inp = Some GenerateQuestions ->
  service inp = GenText raw None ->
  fst (run py_str (Some s) inp) = Go tt /\
  state (snd (run py_str (Some s) inp)) = s /\
  In (st_error "Failed to parse generated questions. Showing raw output:")
     (page (snd (run py_str (Some s) inp))) /\
  In (st_code raw) (page (snd (run py_str (Some s) inp))).
Proof.
  intros Hs Hu He Hc Hg.
  destruct s as [qv i sc st started ans]. destruct inp as [up nq cl r g].
  fields. subst.
  crunch; finish; cbn; auto 10.
Qed.

(** The run on a finished quiz, unless [Restart Quiz] was clicked. *)
Lemma run_completed (s : session) (inp : widgets) :
  phase_of s = Completed -> clicked inp <> Some RestartQuiz ->
  exists n, len (questions s) = Ok n /\
    run py_str (Some s) inp
    = (Halt Returned, mkWorld s (completed_page py_str s n)).
Proof.
  intros Hp Hc.
  destruct s as [qv i sc st started ans]. destruct inp as [up nq cl r g].
  fields. revert Hp. destruct cl as [[]|]; try congruence; clear Hc.
  all: crunch; try discriminate; intros _; eexists; split; reflexivity.
Qed.

(** [Restart Quiz]: the button exists on the page of a finished quiz only. *)
Lemma run_restart (s : session) (inp : widgets) :
  clicked inp = Some RestartQuiz ->
  state (snd (run py_str (Some s) inp))
  = match phase_of s with
    | Completed => set_quiz_started false s
    | _ => s
    end.
Proof.
  intros Hc.
  destruct s as [qv i sc st started ans]. destruct inp as [up nq cl r g].
  fields. subst.
  crunch; finish.
Qed.


(** What an interaction does to the score, whatever the session holds. *)
Lemma run_score (s : session) (inp : widgets) :
  match clicked inp with
  | Some SubmitAnswer =>
      score (state (snd (run py_str (Some s) inp))) = score s
      \/ score (state (snd (run py_str (Some s) inp))) = score s + 1
  | Some GenerateQuestions =>
      score (state (snd (run py_str (Some s) inp))) = score s
      \/ (quiz_started s = false
          /\ score (state (snd (run py_str (Some s) inp))) = 0)
  | _ => score (state (snd (run py_str (Some s) inp))) = score s
  end.
Proof.
  destruct s as [qv i sc st started ans]. destruct inp as [up nq cl r g].
  fields. destruct cl as [[]|].
  all: crunch; auto.
Qed.

(** ** The script refines the state machine

    On a session state holding a valid question set, whatever the widgets of
    the run, the run performs one of the transitions or none. *)
Lemma run_transition (s : session) (inp : widgets) :
  valid_set (questions s) = true -> 0 <= current_question s ->
  valid_input inp ->
  transition s (state (snd (run py_str (Some s) inp))).
Proof.
  intros Hv Hi Hin.
  destruct s as [qv i sc st started ans]. destruct inp as [up nq cl r g].
  unfold valid_input in Hin. fields.
  destruct qv as [| | | | |qs|]; try discriminate. cbn [valid_set] in Hv.
  assert (Hlen : len (VList qs) = Ok (Z.of_nat (List.length qs))) by reflexivity.
  destruct started.
  - destruct (Z_lt_le_dec i (Z.of_nat (List.length qs))) as [Hlt|Hge].
    + destruct (valid_question qs i Hv (conj Hi Hlt)) as (q & Hn & Hf).
      assert (Hat : at_question (mkSession (VList qs) i sc st true ans) qs q)
        by (repeat split; assumption).
      question_facts Hat Hf. fields.
      crunch; solve_transition.
    + assert ((Z.of_nat (List.length qs) <=? i) = true) by (apply Z.leb_le; lia).
      crunch; solve_transition.
  - crunch; solve_transition.
Qed.


Lemma reachable_inv (s : session) : reachable py_str s -> inv s.
Proof.
  induction 1 as [|s inp Hr IH Hin].
  - exact inv_fresh.
  - rewrite step_state. apply (inv_transition s); [assumption|].
    destruct IH as (Hv & (n & Hn & Hi) & _).
    apply run_transition; [assumption|lia|assumption].
Qed.


Section Perfect.

Variables (f : upload) (n : Z) (g : generation).

(** Answering the remaining questions [rest] correctly, one after the
    other, after the questions [past]. *)
Lemma play_rest (rest past : list value) (sc st : Z) :
  forallb answerable rest = true ->
  fold_left (step py_str) (flat_map (answer_correctly f n g) rest)
    (mkSession (VList (past ++ rest)) (Z.of_nat (List.length past)) sc st true false)
  = mkSession (VList (past ++ rest))
      (Z.of_nat (List.length past) + Z.of_nat (List.length rest))
      (sc + Z.of_nat (List.length rest)) (st + Z.of_nat (List.length rest))
      true false.
Proof.
  revert past sc st.
  induction rest as [|q rest IH]; intros past sc st Hall.
  - cbn. f_equal; lia.
  - cbn [forallb] in Hall. apply andb_prop in Hall. destruct Hall as [Hq Hall].
    unfold answerable in Hq. apply andb_prop in Hq. destruct Hq as [Hf Hp].
    destruct (correct_pick q) as [p|] eqn:Ep; [clear Hp|discriminate].
    pose proof (correct_pick_label q p Ep) as Hc.
    cbn [flat_map app]. unfold answer_correctly at 1. rewrite Ep.
    cbn [app fold_left].
    set (s0 := mkSession (VList (past ++ q :: rest)) (Z.of_nat (List.length past))
                 sc st true false).
    assert (Hat : forall sc' st' a,
               at_question (mkSession (VList (past ++ q :: rest))
                              (Z.of_nat (List.length past)) sc' st' true a)
                 (past ++ q :: rest) q).
    { intros. repeat split; cbn; [lia|].
      rewrite Nat2Z.id, nth_error_app2 by lia. now rewrite Nat.sub_diag. }
    rewrite (step_state s0).
    destruct (run_submit s0 (press f n g SubmitAnswer p) _ q _
                (Hat _ _ _) Hf eq_refl Hc eq_refl) as [_ ->].
    cbn [radio press str_eq]. rewrite String.eqb_refl. subst s0.
    cbv [set_answered set_streak set_score questions current_question
         score streak quiz_started answered].
    rewrite step_state.
    destruct (run_next _ (press f n g NextQuestion PickA) _ q
                (Hat (sc + 1) (st + 1) true) Hf eq_refl eq_refl) as [_ ->].
    cbv [set_answered set_current_question questions current_question
         score streak quiz_started answered].
    specialize (IH (past ++ [q])%list (sc + 1) (st + 1) Hall).
    rewrite <- app_assoc in IH. cbn [app] in IH.
    rewrite length_app in IH. cbn [List.length] in IH.
    replace (Z.of_nat (List.length past + 1)) with (Z.of_nat (List.length past) + 1)
      in IH by lia.
    rewrite IH. cbn [List.length]. f_equal; lia.
Qed.

End Perfect.

End Facts.


(** ** The Restart button on the page *)

Section RestartFacts.

Variable py_str : value -> string.

(** The page of a run has the [Restart Quiz] button exactly when the run
    started from a completed quiz. *)
Lemma run_offers_restart (s : session) (inp : widgets) :
  existsb is_restart_button (page (snd (run py_str (Some s) inp)))
  = match phase_of s with Completed => true | _ => false end.
Proof.
  destruct s as [qv i sc st started ans]. destruct inp as [up nq cl r g].
  crunch; reflexivity.
Qed.

(** A run that does not ask for a rerun leaves the quiz in its phase. *)
Lemma run_keeps_phase (s : session) (inp : widgets) :
  fst (run py_str (Some s) inp) <> Halt Rerun ->
  phase_of (state (snd (run py_str (Some s) inp))) = phase_of s.
Proof.
  destruct s as [qv i sc st started ans]. destruct inp as [up nq cl r g].
  crunch; intros H; try reflexivity; now elim H.
Qed.

End RestartFacts.

Lemma restart_button_in (l : list ui) :
  existsb is_restart_button l = true <-> In (st_button RestartQuiz) l.
Proof.
  rewrite existsb_exists. split.
  - intros (u & Hin & Hu). destruct u as [| | | | |[]| | | | | | | | |];
      try discriminate. exact Hin.
  - intros Hin. now exists (st_button RestartQuiz).
Qed.

Section RestartPage.

Variable py_str : value -> string.

(** The page an interaction leaves offers [Restart Quiz] exactly when the
    state it leaves is a completed quiz. *)
Lemma shown_offers_restart (s : session) (inp : widgets) :
  In (st_button RestartQuiz) (shown py_str s inp)
  <-> phase_of (step py_str s inp) = Completed.
Proof.
  rewrite <- restart_button_in.
  destruct (fst (run py_str (Some s) inp)) as [[]|[| |e]] eqn:E.
  1,2,4: rewrite shown_go, step_state, run_offers_restart,
           <- (run_keeps_phase py_str s inp)
           by (rewrite E; discriminate);
         destruct (phase_of (state (snd (run py_str (Some s) inp))));
         split; congruence.
  rewrite (shown_rerun py_str s inp E), run_offers_restart.
  destruct (phase_of (step py_str s inp)); split; congruence.
Qed.

End RestartPage.

(** ** Runs on a session state that holds anything *)

Ltac side :=
  first [ assumption
        | reflexivity
        | solve [apply Z.ltb_ge; assumption]
        | solve [unfold_script; use_facts; reflexivity]
        | solve [unfold current_fields, has_fields, choice_labels, is_ok;
                 fields; cbn [forallb];
                 repeat (progress (use_facts; cbv beta iota)); reflexivity] ].

Ltac solve_moves :=
  solve [ apply M_none
        | apply M_load; side
        | apply M_restart; side
        | apply M_correct; side
        | apply M_wrong; side
        | apply M_next; side
        | apply M_counted; side
        | apply M_reset; side ].

Section Moves.

Variable py_str : value -> string.

(** Whatever the session state holds and whatever the widgets, a run makes
    one of the moves. *)
Lemma run_moves (s : session) (inp : widgets) :
  moves s (state (snd (run py_str (Some s) inp))).
Proof.
  destruct s as [qv i sc st started ans]. destruct inp as [up nq cl r g].
  crunch; solve_moves.
Qed.

End Moves.

Lemma len_nonneg (v : value) (n : Z) : len v = Ok n -> 0 <= n.
Proof.
  destruct v; cbn; try discriminate; intros [= <-]; apply Nat2Z.is_nonneg.
Qed.

Lemma phase_completed (s : session) :
  phase_of s = Completed ->
  quiz_started s = true /\
  exists n, len (questions s) = Ok n /\ n <= current_question s.
Proof.
  unfold phase_of.
  destruct (quiz_started s); [|discriminate].
  destruct (len (questions s)) as [n|]; [|discriminate].
  destruct (n <=? current_question s) eqn:E; [|discriminate].
  intros _. split; [reflexivity|]. exists n. split; [reflexivity|].
  now apply Z.leb_le.
Qed.

Lemma current_fields_frame (s s' : session) :
  questions s' = questions s -> current_question s' = current_question s ->
  current_fields s' = current_fields s.
Proof. unfold current_fields. now intros -> ->. Qed.

(** A quiz that is held up stays held up, at the same question. *)
Lemma moves_held_up (s s' : session) :
  held_up s -> moves s s' ->
  held_up s' /\ questions s' = questions s
  /\ current_question s' = current_question s.
Proof.
  intros (Hst & Ha & Hp & Hf) Hm.
  inversion Hm; subst; try congruence.
  all: unfold held_up; cbn; repeat split; assumption.
Qed.

Ltac five := split; [|split; [|split; [|split]]].

Lemma moves_inv_any (s s' : session) :
  inv_any s -> moves s s' -> inv_any s'.
Proof.
  intros (Hi & Hk & Ha & Hn & Hs) Hm.
  unfold answered_count in Hs.
  inversion Hm as [ | v Hq | Hp | Hp H0 Hna Hf | Hp H0 Hna Hf | Hp H0 Hya
                    | Hp H0 Hna Hf | Hp H0 Hna Hf ]; subst; clear Hm;
    unfold inv_any, answered_count; cbn; five.
  (* no move *)
  - exact Hi.
  - exact Hk.
  - exact Ha.
  - exact Hn.
  - exact Hs.
  (* load *)
  - lia.
  - lia.
  - discriminate.
  - intros n Hv. now apply (len_nonneg v).
  - left. lia.
  (* restart *)
  - exact Hi.
  - exact Hk.
  - intros Hans. destruct (Ha Hans) as [Hp' _]. congruence.
  - exact Hn.
  - left. destruct Hs as [Hs|(_ & _ & Hp' & _)]; [exact Hs|congruence].
  (* a right answer *)
  - exact Hi.
  - lia.
  - intros _. split; [exact Hp|exact Hf].
  - exact Hn.
  - left. destruct Hs as [Hs|(_ & _ & _ & Hf')]; [|congruence].
    rewrite Hna in Hs. lia.
  (* a wrong answer *)
  - exact Hi.
  - lia.
  - intros _. split; [exact Hp|exact Hf].
  - exact Hn.
  - left. destruct Hs as [Hs|(_ & _ & _ & Hf')]; [|congruence].
    rewrite Hna in Hs. lia.
  (* next *)
  - lia.
  - exact Hk.
  - discriminate.
  - destruct (phase_in_progress s _ Hp) as (Hst & n & Hlen & Hlt).
    intros m Hm. rewrite Hlen in Hm. injection Hm as <-. lia.
  - left. destruct Hs as [Hs|(_ & Hna & _)]; [|congruence].
    rewrite Hya in Hs. lia.
  (* an answer counted, the question not marked *)
  - exact Hi.
  - lia.
  - congruence.
  - exact Hn.
  - destruct (phase_in_progress s _ Hp) as (Hst & _).
    right. repeat split; assumption.
  (* the streak reset, the question not marked *)
  - exact Hi.
  - lia.
  - congruence.
  - exact Hn.
  - destruct (phase_in_progress s _ Hp) as (Hst & _).
    right. repeat split; assumption.
Qed.

Lemma inv_any_fresh : inv_any fresh.
Proof.
  unfold inv_any, answered_count; cbn. five.
  - lia.
  - lia.
  - discriminate.
  - intros n [= <-]. lia.
  - left. lia.
Qed.

Section AnyFacts.

Variable py_str : value -> string.

Lemma step_moves (s : session) (inp : widgets) : moves s (step py_str s inp).
Proof. rewrite step_state. apply run_moves. Qed.

Lemma reachable_any_inv (s : session) : reachable_any py_str s -> inv_any s.
Proof.
  induction 1 as [|s inp Hr IH]; [exact inv_any_fresh|].
  exact (moves_inv_any s _ IH (step_moves s inp)).
Qed.

Lemma reachable_is_reachable_any (s : session) :
  reachable py_str s -> reachable_any py_str s.
Proof.
  induction 1 as [|s inp Hr IH Hin]; [apply any_fresh|now apply any_step].
Qed.

Lemma held_up_forever (s : session) (l : list widgets) :
  held_up s ->
  held_up (fold_left (step py_str) l s)
  /\ questions (fold_left (step py_str) l s) = questions s
  /\ current_question (fold_left (step py_str) l s) = current_question s.
Proof.
  revert s. induction l as [|inp l IH]; intros s Hs;
    [split; [exact Hs|split; reflexivity]|].
  cbn [fold_left].
  destruct (moves_held_up s _ Hs (step_moves s inp)) as (Hs' & Hq & Hi).
  destruct (IH _ Hs') as (H1 & H2 & H3).
  split; [exact H1|split; congruence].
Qed.

End AnyFacts.

(** * The properties of the specification *)

(** ** Restart *)

(** C1 (as the script has it): [Restart Quiz] is offered on the page of a
    completed quiz and on no other: the page a run renders has the button
    exactly when the run started from a completed quiz, and the page an
    interaction leaves has it exactly when the state it leaves is a
    completed quiz.  A click on it ends the finished quiz by clearing
    [quiz_started] and nothing else: question set, index, score, streak and
    answered flag stay as they were until the next load overwrites them.
    In every other state the click changes nothing. *)
Theorem restart_stops_quiz (py_str : value -> string) (s : session)
    (inp : widgets) :
  clicked inp = Some RestartQuiz ->
  step py_str s inp
  = match phase_of s with
    | Completed => set_quiz_started false s
    | _ => s
    end /\
  (forall any,
     In (st_button RestartQuiz) (page (snd (run py_str (Some s) any)))
     <-> phase_of s = Completed) /\
  (forall any,
     In (st_button RestartQuiz) (shown py_str s any)
     <-> phase_of (step py_str s any) = Completed).
Proof.
  intros Hc. split; [|split].
  - rewrite step_state. now apply run_restart.
  - intros any. rewrite <- restart_button_in, run_offers_restart.
    destruct (phase_of s); split; congruence.
  - intros any. apply shown_offers_restart.
Qed.

Lemma restart_stops_quiz_witness :
  step Examples.str Examples.over Examples.restart
  = set_quiz_started false Examples.over /\
  ~ In (st_button RestartQuiz)
      (page (snd (run Examples.str (Some Examples.asked) Examples.restart))).
Proof.
  destruct (restart_stops_quiz Examples.str Examples.over Examples.restart
              eq_refl) as (Hstep & _ & _).
  destruct (restart_stops_quiz Examples.str Examples.asked Examples.restart
              eq_refl) as (_ & Hpage & _).
  split; [exact Hstep|].
  intros Hin. apply Hpage in Hin. discriminate Hin.
Defined.

(** C1 (as the specification has it) fails: after [Restart Quiz] on the
    finished one-question quiz the session is not the fresh one; question
    set, index, score and streak are those of the quiz just played. *)
Lemma restart_keeps_quiz_data :
  let s' := step Examples.str Examples.over Examples.restart in
  s' <> fresh /\ questions s' = VList [Examples.q1] /\
  current_question s' = 1 /\ score s' = 1 /\ streak s' = 1.
Proof.
  vm_compute. repeat split; try reflexivity. discriminate.
Qed.

(** ** Load *)

(** C2 (as the script has it): a question set with zero entries is loaded
    like any other.  No error is shown, the quiz is started with index,
    score and streak 0 and answered false, and it is finished at once. *)
Theorem load_empty_set (py_str : value -> string) (s : session)
    (inp : widgets) (f : upload) (text raw : string) :
  quiz_started s = false -> uploaded_file inp = Some f ->
  extractor f = Some (inr text) -> clicked inp = Some GenerateQuestions ->
  service inp = GenText raw (Some (VList [])) ->
  step py_str s inp = mkSession (VList []) 0 0 0 true false /\
  phase_of (step py_str s inp) = Completed /\
  existsb is_error (shown py_str s inp) = false.
Proof.
  intros Hs Hu He Hc Hg.
  destruct (run_load py_str s inp f text raw _ Hs Hu He Hc Hg) as [Hre Hst].
  assert (E : step py_str s inp = mkSession (VList []) 0 0 0 true false)
    by now rewrite step_state.
  rewrite (shown_rerun py_str s inp Hre), E.
  repeat split.
  destruct (run_completed py_str (mkSession (VList []) 0 0 0 true false)
              (no_click inp) eq_refl) as (n & _ & ->); [discriminate|].
  reflexivity.
Qed.

Lemma load_empty_set_witness :
  step Examples.str fresh (Examples.load "[]" (VList []))
  = mkSession (VList []) 0 0 0 true false.
Proof.
  exact (proj1 (load_empty_set Examples.str fresh (Examples.load "[]" (VList []))
                  Examples.notes "Sepsis. Shock." "[]"
                  eq_refl eq_refl eq_refl eq_refl eq_refl)).
Defined.

(** C2 (as the specification has it) fails: loading the empty question set
    into the fresh session shows no error and leaves [NotStarted]; the
    session is [Completed]. *)
Lemma load_empty_leaves_not_started :
  let inp := Examples.load "[]" (VList []) in
  phase_of (step Examples.str fresh inp) = Completed /\
  phase_of (step Examples.str fresh inp) <> NotStarted /\
  existsb is_error (shown Examples.str fresh inp) = false.
Proof.
  vm_compute. repeat split; try reflexivity. discriminate.
Qed.

(** ** SubmitAnswer *)

(** C3 (as the script has it): on a question in progress and not yet
    answered whose record has the keys the script reads ([question],
    [choices] with the four labels, [correct], [explanation]), submitting
    the label the question names as correct adds exactly 1 to the score and
    to the streak; submitting any other of the four labels leaves the score
    and sets the streak to 0; either way the question is then answered (and
    still the current one).  Labels are compared as strings, exactly. *)
Theorem submit_answer_scores (py_str : value -> string) (s : session)
    (inp : widgets) (qs : list value) (q c : value) :
  at_question s qs q -> has_fields q = true -> answered s = false ->
  getitem_str q "correct" = Ok c -> clicked inp = Some SubmitAnswer ->
  let s' := step py_str s inp in
  (c = VStr (pick_label (radio inp)) ->
   score s' = score s + 1 /\ streak s' = streak s + 1) /\
  (c <> VStr (pick_label (radio inp)) ->
   score s' = score s /\ streak s' = 0) /\
  answered s' = true /\ at_question s' qs q.
Proof.
  intros Hat Hf Ha Hc Hcl s'. subst s'. rewrite step_state.
  destruct (run_submit py_str s inp qs q c Hat Hf Ha Hc Hcl) as [_ ->].
  destruct Hat as (Hst & Hqs & Hi & Hn).
  assert (Hat' : forall s1, quiz_started s1 = quiz_started s ->
                 questions s1 = questions s ->
                 current_question s1 = current_question s ->
                 at_question s1 qs q).
  { intros s1 E1 E2 E3. unfold at_question. rewrite E1, E2, E3. auto. }
  destruct (str_eq (pick_label (radio inp)) c) eqn:E.
  - apply str_eq_spec in E.
    split; [intros _; split; reflexivity|].
    split; [intros Hne; contradiction|].
    split; [reflexivity|now apply Hat'].
  - assert (Hne : c <> VStr (pick_label (radio inp)))
      by (intros Heq; apply str_eq_spec in Heq; congruence).
    split; [intros Heq; contradiction|].
    split; [intros _; split; reflexivity|].
    split; [reflexivity|now apply Hat'].
Qed.

Lemma submit_answer_scores_witness :
  let s' := step Examples.str Examples.asked (Examples.answer PickB) in
  score s' = 1 /\ streak s' = 1 /\ answered s' = true.
Proof.
  assert (Hat : at_question Examples.asked [Examples.q1] Examples.q1)
    by (repeat split; first [reflexivity | lia]).
  destruct (submit_answer_scores Examples.str Examples.asked
              (Examples.answer PickB) [Examples.q1] Examples.q1 (VStr "B")
              Hat eq_refl eq_refl eq_refl eq_refl)
    as (Hright & _ & Hans & _).
  destruct (Hright eq_refl) as [Hsc Hstk].
  repeat split; assumption.
Defined.

(** C3 (as the specification has it) fails: the script reads
    [explanation] after it has counted the answer and before it marks the
    question answered.  On the loaded one-question quiz whose record lacks
    that key, submitting the correct label raises the counters and leaves
    the question not answered. *)
Lemma submit_without_explanation :
  let s := Unchecked.bare_asked in
  let s' := step Examples.str s (Examples.answer PickA) in
  s = step Examples.str fresh (Examples.load "..." (VList [Unchecked.bare])) /\
  phase_of s = InProgress 0 /\ answered s = false /\
  getitem_str Unchecked.bare "correct" = Ok (VStr (pick_label PickA)) /\
  score s' = 1 /\ streak s' = 1 /\ answered s' = false /\ answered s' <> true.
Proof.
  vm_compute. repeat split; try reflexivity. discriminate.
Qed.

(** ** Advance *)

(** C4: on an answered question at index [i], [Next Question] makes [i + 1]
    the current index and clears the answered flag; the session is then in
    progress at [i + 1] when [i + 1] is within the question set, and
    completed otherwise. *)
Theorem advance_moves_on (py_str : value -> string) (s : session)
    (inp : widgets) (qs : list value) (q : value) :
  at_question s qs q -> has_fields q = true -> answered s = true ->
  clicked inp = Some NextQuestion ->
  let i := current_question s in
  let s' := step py_str s inp in
  s' = set_answered false (set_current_question (i + 1) s) /\
  (i + 1 < Z.of_nat (List.length qs) ->
   phase_of s' = InProgress (i + 1) /\ answered s' = false) /\
  (Z.of_nat (List.length qs) <= i + 1 -> phase_of s' = Completed).
Proof.
  intros Hat Hf Ha Hcl i s'. subst i s'. rewrite step_state.
  destruct (run_next py_str s inp qs q Hat Hf Ha Hcl) as [_ ->].
  destruct Hat as (Hst & Hqs & Hi & Hn).
  split; [reflexivity|].
  unfold phase_of. cbn. rewrite Hst, Hqs. cbn [len].
  split; intros Hlt.
  - replace (Z.of_nat (List.length qs) <=? current_question s + 1) with false
      by (symmetry; apply Z.leb_gt; lia).
    split; reflexivity.
  - replace (Z.of_nat (List.length qs) <=? current_question s + 1) with true
      by (symmetry; apply Z.leb_le; lia).
    reflexivity.
Qed.

Lemma advance_moves_on_witness :
  step Examples.str Examples.right Examples.next = Examples.over /\
  phase_of (step Examples.str Examples.right Examples.next) = Completed.
Proof.
  assert (Hat : at_question Examples.right [Examples.q1] Examples.q1)
    by (repeat split; first [reflexivity | lia]).
  destruct (advance_moves_on Examples.str Examples.right Examples.next
              [Examples.q1] Examples.q1 Hat eq_refl eq_refl eq_refl)
    as (Hs & _ & Hdone).
  split; [exact Hs|]. apply Hdone. discriminate.
Defined.




(** ** A whole quiz *)

(** C6: load a question set (empty or not) whose questions each name one of
    the four labels as correct, then for every question in order submit
    that label and go on: the quiz ends completed, with score and streak
    both equal to the number of questions. *)
Theorem perfect_play (py_str : value -> string) (s : session) (f : upload)
    (n : Z) (g : generation) (text raw : string) (qs : list value) :
  quiz_started s = false -> extractor f = Some (inr text) ->
  forallb answerable qs = true ->
  let s' := fold_left (step py_str) (play_perfectly f n g raw qs) s in
  phase_of s' = Completed /\
  score s' = Z.of_nat (List.length qs) /\
  streak s' = Z.of_nat (List.length qs).
Proof.
  intros Hs He Hall s'. subst s'.
  unfold play_perfectly. cbn [fold_left].
  rewrite step_state.
  destruct (run_load py_str s
              (mkWidgets (Some f) n (Some GenerateQuestions) PickA
                 (GenText raw (Some (VList qs))))
              f text raw (VList qs) Hs eq_refl He eq_refl eq_refl) as [_ ->].
  pose proof (play_rest py_str f n g qs [] 0 0 Hall) as Hplay.
  cbn [List.length app Z.of_nat Z.add] in Hplay. rewrite Hplay.
  unfold phase_of. cbn. now rewrite Z.leb_refl.
Qed.

Lemma perfect_play_witness :
  let s' := fold_left (step Examples.str)
              (play_perfectly Examples.notes 5 Examples.idle "..." Examples.abc)
              fresh in
  phase_of s' = Completed /\ score s' = 3 /\ streak s' = 3.
Proof.
  exact (perfect_play Examples.str fresh Examples.notes 5 Examples.idle
           "Sepsis. Shock." "..." Examples.abc eq_refl eq_refl eq_refl).
Defined.

(** ** Invariant *)

(** C7 (as the script has it): in every session state the script can
    reach, whatever the generation service answered, the index is at least
    0 and at most the length of the question set whenever the question set
    has a length, the streak is at most the score, an interaction that makes
    a new question current leaves it not answered, and the score is at most
    the number of questions answered so far unless the quiz is held up at a
    question whose record cannot be read or lacks a key.  When whatever was
    loaded is a list of question records with all their keys, the question
    set has a length and the score is at most the number of questions
    answered so far, throughout. *)
Theorem reachable_invariant (py_str : value -> string) (s : session) :
  reachable_any py_str s ->
  0 <= current_question s /\
  (forall n, len (questions s) = Ok n -> current_question s <= n) /\
  streak s <= score s /\
  (score s <= answered_count s \/ held_up s) /\
  (forall inp,
     let s' := step py_str s inp in
     current_question s' <> current_question s \/ questions s' <> questions s
     \/ (quiz_started s = false /\ quiz_started s' = true) ->
     answered s' = false) /\
  (reachable py_str s ->
   (exists n, len (questions s) = Ok n /\ 0 <= current_question s <= n) /\
   score s <= answered_count s).
Proof.
  intros Hr.
  destruct (reachable_any_inv py_str s Hr) as (Hi & Hk & Ha & Hn & Hs).
  split; [exact Hi|]. split; [exact Hn|]. split; [lia|]. split; [exact Hs|].
  split.
  - intros inp s' Hnew.
    pose proof (step_moves py_str s inp) as Hm. fold s' in Hm.
    clearbody s'.
    inversion Hm as [ | v Hq | Hp | Hp H0 Hna Hf | Hp H0 Hna Hf
                      | Hp H0 Hya | Hp H0 Hna Hf | Hp H0 Hna Hf ];
      subst; cbn in Hnew |- *; try reflexivity;
      try match goal with
          | Hc : phase_of _ = Completed |- _ =>
              destruct (phase_completed _ Hc) as (Hst & _)
          end;
      destruct Hnew as [H|[H|[H1 H2]]]; congruence.
  - intros Hv. destruct (reachable_inv py_str s Hv) as (_ & Hidx & _ & Hsc).
    split; assumption.
Qed.

Lemma reachable_invariant_witness :
  let s := fold_left (step Examples.str) Unchecked.twice fresh in
  streak s <= score s /\ (score s <= answered_count s \/ held_up s).
Proof.
  assert (Hr : reachable_any Examples.str
                 (fold_left (step Examples.str) Unchecked.twice fresh))
    by (cbn [fold_left Unchecked.twice]; repeat apply any_step; apply any_fresh).
  destruct (reachable_invariant Examples.str _ Hr)
    as (_ & _ & Hk & Hs & _).
  split; assumption.
Defined.

(** C7 (as the specification has it) fails: the script loads whatever
    parses.  After a one-question set whose record lacks [explanation] and
    the right answer submitted twice, the score is 2 with no question
    answered; after the answer [5], the question set has no length. *)
Lemma unchecked_load_breaks_invariant :
  let s := fold_left (step Examples.str) Unchecked.twice fresh in
  let five := step Examples.str fresh (Examples.load "5" (VInt 5)) in
  reachable_any Examples.str s /\
  score s = 2 /\ answered_count s = 0 /\ ~ score s <= answered_count s /\
  reachable_any Examples.str five /\ len (questions five) = Raise TypeError.
Proof.
  split; [cbn [fold_left Unchecked.twice]; repeat apply any_step; apply any_fresh|].
  split; [reflexivity|]. split; [reflexivity|].
  split; [vm_compute; intros H; now apply H|].
  split; [apply any_step, any_fresh|reflexivity].
Qed.

(** ** Malformed generation *)

(** C8 (as the script has it): when [json.loads] rejects the text of the
    generation service, the page shows the parse error followed by the text
    itself, nothing of the text is used, and the session state is
    unchanged. *)
Theorem unparseable_text_is_shown (py_str : value -> string) (s : session)
    (inp : widgets) (f : upload) (text raw : string) :
  quiz_started s = false -> uploaded_file inp = Some f ->
  extractor f = Some (inr text) -> clicked inp = Some GenerateQuestions ->
  service inp = GenText raw None ->
  step py_str s inp = s /\
  In (st_error "Failed to parse generated questions. Showing raw output:")
     (shown py_str s inp) /\
  In (st_code raw) (shown py_str s inp).
Proof.
  intros Hs Hu He Hc Hg.
  destruct (run_garbled py_str s inp f text raw Hs Hu He Hc Hg)
    as (Hgo & Hst & Herr & Hcode).
  rewrite step_state, shown_go by (rewrite Hgo; discriminate).
  repeat split; assumption.
Qed.

Lemma unparseable_text_is_shown_witness :
  step Examples.str fresh (Examples.garbled "Sorry, I cannot") = fresh /\
  In (st_code "Sorry, I cannot")
     (shown Examples.str fresh (Examples.garbled "Sorry, I cannot")).
Proof.
  destruct (unparseable_text_is_shown Examples.str fresh
              (Examples.garbled "Sorry, I cannot") Examples.notes
              "Sepsis. Shock." "Sorry, I cannot"
              eq_refl eq_refl eq_refl eq_refl eq_refl) as (Hs & _ & Hcode).
  split; assumption.
Defined.

(** C8 (as the specification has it) fails: the text [{}] parses, though
    not as an array; it is taken as the question set, the quiz is started,
    and neither an error nor the text is shown. *)
Lemma json_object_is_loaded :
  let inp := Examples.load "{}" (VDict []) in
  step Examples.str fresh inp = mkSession (VDict []) 0 0 0 true false /\
  step Examples.str fresh inp <> fresh /\
  existsb is_error (shown Examples.str fresh inp) = false /\
  existsb is_code (shown Examples.str fresh inp) = false.
Proof.
  vm_compute. repeat split; try reflexivity. discriminate.
Qed.

(** ** Best streak *)

(** C9: when the last question is answered and [Next Question] ends the
    quiz, the page of the completed quiz reports as best streak the streak
    counter as the last answer left it; after a wrong last answer that is 0,
    whatever the streak was before. *)
Theorem best_streak_is_final_streak (py_str : value -> string) (s : session)
    (submit_click next_click : widgets) (qs : list value) (q c : value) :
  at_question s qs q -> has_fields q = true -> answered s = false ->
  current_question s + 1 = Z.of_nat (List.length qs) ->
  getitem_str q "correct" = Ok c ->
  clicked submit_click = Some SubmitAnswer ->
  clicked next_click = Some NextQuestion ->
  let s1 := step py_str s submit_click in
  let s2 := step py_str s1 next_click in
  phase_of s2 = Completed /\
  streak s2 = streak s1 /\
  In (st_markdown ("**Best Streak:** " ++ py_str (VInt (streak s1))))
     (shown py_str s1 next_click) /\
  (c <> VStr (pick_label (radio submit_click)) ->
   In (st_markdown ("**Best Streak:** " ++ py_str (VInt 0)))
      (shown py_str s1 next_click)).
Proof.
  intros Hat Hf Ha Hlast Hc Hsub Hnext s1 s2.
  assert (Hs1 : answered s1 = true /\ at_question s1 qs q /\
                (c <> VStr (pick_label (radio submit_click)) -> streak s1 = 0)).
  { subst s1 s2. rewrite step_state.
    destruct (run_submit py_str s submit_click qs q c Hat Hf Ha Hc Hsub) as [_ ->].
    destruct Hat as (Hst & Hqs & Hi & Hn).
    destruct (str_eq (pick_label (radio submit_click)) c) eqn:E.
    - apply str_eq_spec in E. repeat split; try assumption. congruence.
    - repeat split; assumption. }
  destruct Hs1 as (Ha1 & Hat1 & Hwrong).
  destruct (run_next py_str s1 next_click qs q Hat1 Hf Ha1 Hnext) as [Hre Hst2].
  assert (E2 : s2 = set_answered false
                     (set_current_question (current_question s1 + 1) s1))
    by (subst s2; now rewrite step_state).
  assert (Hi1 : current_question s1 = current_question s).
  { subst s1. rewrite step_state.
    destruct (run_submit py_str s submit_click qs q c Hat Hf Ha Hc Hsub) as [_ ->].
    now destruct (str_eq (pick_label (radio submit_click)) c). }
  assert (Hp2 : phase_of s2 = Completed).
  { rewrite E2. destruct Hat1 as (Hst & Hqs & _ & _).
    unfold phase_of. cbn. rewrite Hst, Hqs. cbn [len].
    rewrite Hi1, Hlast. now rewrite Z.leb_refl. }
  assert (Hk2 : streak s2 = streak s1) by (now rewrite E2).
  assert (Hpage : In (st_markdown ("**Best Streak:** " ++ py_str (VInt (streak s1))))
                     (shown py_str s1 next_click)).
  { rewrite (shown_rerun py_str s1 next_click Hre). fold s2.
    destruct (run_completed py_str s2 (no_click next_click) Hp2)
      as (n & _ & ->); [discriminate|].
    rewrite <- Hk2. cbn. auto 10. }
  repeat split; try assumption.
  intros Hne. rewrite <- (Hwrong Hne). exact Hpage.
Qed.

Lemma best_streak_is_final_streak_witness :
  In (st_markdown ("**Best Streak:** " ++ Examples.str (VInt 0)))
     (shown Examples.str
        (step Examples.str Examples.asked (Examples.answer PickA)) Examples.next).
Proof.
  assert (Hat : at_question Examples.asked [Examples.q1] Examples.q1)
    by (repeat split; first [reflexivity | lia]).
  destruct (best_streak_is_final_streak Examples.str Examples.asked
              (Examples.answer PickA) Examples.next [Examples.q1] Examples.q1
              (VStr "B") Hat eq_refl eq_refl eq_refl eq_refl eq_refl eq_refl)
    as (_ & _ & _ & Hzero).
  apply Hzero. discriminate.
Defined.

(** ** Score *)

(** C10: the score never goes down except by a load, which a started quiz
    does not offer: [Submit Answer] adds 1 or nothing, [Generate Questions]
    changes nothing or, on a quiz not started, resets the score to 0, and
    every other interaction ([Next Question], [Restart Quiz], none) leaves
    the score as it is.  This holds whatever the session state holds. *)
Theorem score_never_decreases (py_str : value -> string) (s : session)
    (inp : widgets) :
  match clicked inp with
  | Some SubmitAnswer =>
      score (step py_str s inp) = score s
      \/ score (step py_str s inp) = score s + 1
  | Some GenerateQuestions =>
      score (step py_str s inp) = score s
      \/ (quiz_started s = false /\ score (step py_str s inp) = 0)
  | _ => score (step py_str s inp) = score s
  end.
Proof.
  rewrite step_state. apply run_score.
Qed.

(** ** The scenarios of the specification, and three more *)

(** One question with correct label B, answered B, then advanced. *)
Example scenario_one_question :
  Examples.play fresh [Examples.load "..." (VList [Examples.q1]);
                       Examples.answer PickB] = Examples.right
  /\ Examples.play Examples.right [Examples.next] = Examples.over
  /\ phase_of Examples.over = Completed.
Proof. repeat split; reflexivity. Qed.

(** Correct labels A, B, C; the second answer is wrong. *)
Example scenario_second_wrong :
  let s := Examples.play fresh
             [Examples.load "..." (VList Examples.abc);
              Examples.answer PickA; Examples.next;
              Examples.answer PickD; Examples.next;
              Examples.answer PickC; Examples.next] in
  score s = 2 /\ streak s = 1 /\ phase_of s = Completed.
Proof. repeat split; reflexivity. Qed.

(** A wrong answer leaves the score and answers the question. *)
Example scenario_wrong_answer :
  step Examples.str Examples.asked (Examples.answer PickA) = Examples.wrong.
Proof. reflexivity. Qed.

(** Two right answers, then a wrong one: the streak was 2 on the way, the
    page of the completed quiz says 0. *)
Example streak_on_the_way_is_lost :
  let s := Examples.play fresh
             [Examples.load "..." (VList Examples.abc);
              Examples.answer PickA; Examples.next;
              Examples.answer PickB] in
  streak s = 2 /\
  In (st_markdown "**Best Streak:** 0")
     (shown Examples.str
        (Examples.play s [Examples.next; Examples.answer PickD]) Examples.next).
Proof. split; [reflexivity|]. vm_compute. auto 10. Qed.

(** Why the question records must have their fields: the script reads
    [explanation] after it has counted the answer and before it marks the
    question answered.  On a record without that key the run stops in
    between with a [KeyError], and the same answer can be counted again. *)
Example record_without_explanation :
  let q := VDict [("question", VStr "Case");
                  ("choices", VDict [("A", VStr "a"); ("B", VStr "b");
                                     ("C", VStr "c"); ("D", VStr "d")]);
                  ("correct", VStr "A")] in
  let s := mkSession (VList [q]) 0 0 0 true false in
  fst (interact Examples.str (Some s) (Examples.answer PickA))
  = Halt (Raised KeyError)
  /\ Examples.play s [Examples.answer PickA; Examples.answer PickA]
     = mkSession (VList [q]) 0 2 2 true false.
Proof. split; reflexivity. Qed.

Section MoreFacts.

Variable py_str : value -> string.

(** The run on a session state whose question set [len] refuses. *)
Lemma run_unrenderable (s : session) (inp : widgets) :
  phase_of s = Unrenderable ->
  run py_str (Some s) inp = (Halt (Raised TypeError), mkWorld s page_head).
Proof.
  intros Hp.
  destruct s as [qv i sc st started ans]. destruct inp as [up nq cl r g].
  unfold phase_of in Hp. fields.
  destruct started; [|discriminate].
  assert (E : len qv = Raise TypeError).
  { destruct qv; cbn in Hp |- *; try reflexivity;
      destruct (_ <=? i); discriminate. }
  clear Hp. crunch; reflexivity.
Qed.


(** The run on a quiz not started whose upload cannot be read. *)
Lemma run_unreadable (s : session) (inp : widgets) (f : upload) :
  quiz_started s = false -> uploaded_file inp = Some f ->
  (forall text, extractor f <> Some (inr text)) ->
  run py_str (Some s) inp
  = (Halt Returned,
     mkWorld s (page_head
                ++ [st_error (match extractor f with
                              | Some (inl e) => "Failed to extract text: " ++ e
                              | _ => "Unsupported file format"
                              end)])).
Proof.
  intros Hs Hu He.
  destruct s as [qv i sc st started ans]. destruct inp as [up nq cl r g].
  fields. subst.
  destruct (extractor f) as [[e|text]|] eqn:E; [| now destruct (He text) |].
  all: unfold page_head; crunch; reflexivity.
Qed.

(** The run on a quiz not started with a readable upload, unless the click
    loads a question set. *)
Lemma run_preview (s : session) (inp : widgets) (f : upload) (text : string) :
  quiz_started s = false -> uploaded_file inp = Some f ->
  extractor f = Some (inr text) ->
  run py_str (Some s) inp
  = match clicked inp, service inp with
    | Some GenerateQuestions, GenText raw (Some v) =>
        (Halt Rerun, mkWorld (mkSession v 0 0 0 true false)
                       (page_head
                        ++ [st_expander "Preview Extracted Text (first 1000 chars)";
                            st_write (preview text);
                            st_button GenerateQuestions;
                            st_spinner "Generating questions..."]))
    | Some GenerateQuestions, GenText raw None =>
        (Go tt, mkWorld s
                  (page_head
                   ++ [st_expander "Preview Extracted Text (first 1000 chars)";
                       st_write (preview text);
                       st_button GenerateQuestions;
                       st_spinner "Generating questions...";
                       st_error "Failed to parse generated questions. Showing raw output:";
                       st_code raw]))
    | Some GenerateQuestions, GenRaises e =>
        (Go tt, mkWorld s
                  (page_head
                   ++ [st_expander "Preview Extracted Text (first 1000 chars)";
                       st_write (preview text);
                       st_button GenerateQuestions;
                       st_spinner "Generating questions...";
                       st_error ("Error generating questions: " ++ e)]))
    | _, _ =>
        (Go tt, mkWorld s
                  (page_head
                   ++ [st_expander "Preview Extracted Text (first 1000 chars)";
                       st_write (preview text);
                       st_button GenerateQuestions]))
    end.
Proof.
  intros Hs Hu He.
  destruct s as [qv i sc st started ans]. destruct inp as [up nq cl r g].
  fields. subst.
  unfold preview, page_head.
  destruct cl as [[]|]; crunch; reflexivity.
Qed.

(** [Generate Questions] where the script does not offer it. *)
Lemma run_generate_elsewhere (s : session) (inp : widgets) :
  clicked inp = Some GenerateQuestions ->
  quiz_started s = true \/ uploaded_file inp = None ->
  state (snd (run py_str (Some s) inp)) = s.
Proof.
  intros Hc Hor.
  destruct s as [qv i sc st started ans]. destruct inp as [up nq cl r g].
  fields. subst.
  destruct Hor as [-> | ->]; crunch; reflexivity.
Qed.

(** What [Submit Answer] and [Next Question] leave alone, whatever the
    session state holds. *)
Lemma run_frame (s : session) (inp : widgets) :
  let s' := state (snd (run py_str (Some s) inp)) in
  match clicked inp with
  | Some SubmitAnswer =>
      questions s' = questions s /\ current_question s' = current_question s /\
      quiz_started s' = quiz_started s /\
      ((score s' = score s /\ streak s' = streak s)
       \/ (score s' = score s + 1 /\ streak s' = streak s + 1)
       \/ (score s' = score s /\ streak s' = 0))
  | Some NextQuestion =>
      s' = s
      \/ (answered s = true
          /\ s' = set_answered false
                    (set_current_question (current_question s + 1) s))
  | _ => True
  end.
Proof.
  destruct s as [qv i sc st started ans]. destruct inp as [up nq cl r g].
  fields. destruct cl as [[]|]; try exact I.
  all: crunch; cbn; auto 10.
Qed.

(** On a valid question set no run ends in an exception. *)
Lemma run_no_raise (s : session) (inp : widgets) :
  valid_set (questions s) = true -> 0 <= current_question s ->
  raises (run py_str (Some s) inp) = false.
Proof.
  intros Hv Hi.
  destruct s as [qv i sc st started ans]. destruct inp as [up nq cl r g].
  fields.
  destruct qv as [| | | | |qs|]; try discriminate. cbn [valid_set] in Hv.
  assert (Hlen : len (VList qs) = Ok (Z.of_nat (List.length qs))) by reflexivity.
  destruct started.
  - destruct (Z_lt_le_dec i (Z.of_nat (List.length qs))) as [Hlt|Hge].
    + destruct (valid_question qs i Hv (conj Hi Hlt)) as (q & Hn & Hf).
      assert (Hat : at_question (mkSession (VList qs) i sc st true ans) qs q)
        by (repeat split; assumption).
      question_facts Hat Hf. fields.
      unfold raises. crunch; reflexivity.
    + assert ((Z.of_nat (List.length qs) <=? i) = true) by (apply Z.leb_le; lia).
      unfold raises. crunch; reflexivity.
  - unfold raises. crunch; reflexivity.
Qed.

(** [Submit Answer] on a question already answered. *)
Lemma run_submit_answered (s : session) (inp : widgets) (qs : list value)
    (q : value) :
  at_question s qs q -> has_fields q = true -> answered s = true ->
  clicked inp = Some SubmitAnswer ->
  fst (run py_str (Some s) inp) = Go tt /\
  state (snd (run py_str (Some s) inp)) = s /\
  ~ In (st_button SubmitAnswer) (page (snd (run py_str (Some s) inp))) /\
  In (st_button NextQuestion) (page (snd (run py_str (Some s) inp))) /\
  existsb is_enabled_radio (page (snd (run py_str (Some s) inp))) = false.
Proof.
  intros Hat Hf Ha Hcl.
  question_facts Hat Hf.
  destruct s as [qv i sc st started ans]. destruct inp as [up nq cl r g].
  fields. subst.
  crunch; finish; cbn; intuition discriminate.
Qed.

End MoreFacts.


(** ** Code points *)

Lemma str_len_app (a b : string) :
  str_len (a ++ b) = (str_len a + str_len b)%nat.
Proof.
  induction a as [|c a IH]; cbn; [reflexivity|]. rewrite IH. lia.
Qed.

Lemma str_len_take (n : nat) (s : string) :
  str_len (str_take n s) = Nat.min n (str_len s).
Proof.
  revert n. induction s as [|c s IH]; intros n; cbn.
  - now rewrite Nat.min_0_r.
  - destruct (is_continuation c) eqn:E; cbn.
    + rewrite E. cbn. apply IH.
    + destruct n as [|n]; cbn; [reflexivity|]. rewrite E, IH. cbn. reflexivity.
Qed.

Lemma str_take_all (n : nat) (s : string) :
  (str_len s <= n)%nat -> str_take n s = s.
Proof.
  revert n. induction s as [|c s IH]; intros n Hn; cbn in *; [reflexivity|].
  destruct (is_continuation c).
  - f_equal. apply IH. lia.
  - destruct n as [|n]; [lia|]. f_equal. apply IH. lia.
Qed.

Lemma preview_short (text : string) :
  (str_len text <= 1000)%nat -> preview text = text.
Proof.
  intros H. unfold preview.
  replace (1000 <? str_len text)%nat with false
    by (symmetry; apply Nat.ltb_ge; exact H).
  rewrite str_take_all by exact H.
  induction text as [|c t IH]; cbn; [reflexivity|].
  f_equal. clear IH H. induction t as [|d t IH]; cbn; [reflexivity|now f_equal].
Qed.

Lemma preview_bound (text : string) : (str_len (preview text) <= 1003)%nat.
Proof.
  unfold preview. rewrite str_len_app, str_len_take.
  pose proof (Nat.le_min_l 1000 (str_len text)) as Hmin.
  destruct (1000 <? str_len text)%nat;
    [change (str_len "...") with 3%nat | change (str_len EmptyString) with 0%nat];
    lia.
Qed.

(** ** File names *)

Lemma endswith_app (base suffix : string) :
  endswith (base ++ suffix) suffix = true.
Proof.
  induction base as [|a base IH]; cbn.
  - destruct suffix as [|a t]; cbn [append endswith];
      now rewrite String.eqb_refl.
  - rewrite IH. apply orb_true_r.
Qed.

Lemma endswith_last (s suffix : string) (c : ascii) :
  endswith s suffix = true -> last_char suffix = Some c ->
  last_char s = Some c.
Proof.
  intros He Hc. induction s as [|a s IH].
  - cbn [endswith] in He. rewrite orb_false_r in He.
    apply String.eqb_eq in He. now subst.
  - cbn [endswith] in He. apply orb_prop in He. destruct He as [He|He].
    + apply String.eqb_eq in He. now rewrite He.
    + specialize (IH He). cbn. destruct s; [discriminate|exact IH].
Qed.

Lemma last_char_app (base suffix : string) :
  suffix <> EmptyString -> last_char (base ++ suffix) = last_char suffix.
Proof.
  intros Hne. induction base as [|a base IH]; [reflexivity|].
  cbn. destruct (base ++ suffix) eqn:E; [|exact IH].
  destruct base; cbn in E; [contradiction|discriminate].
Qed.

(** A name that ends in one extension does not end in another whose last
    letter differs. *)
Lemma endswith_other (base ext other : string) (c d : ascii) :
  last_char ext = Some c -> last_char other = Some d -> c <> d ->
  endswith (base ++ ext) other = false.
Proof.
  intros Hc Hd Hne.
  destruct (endswith (base ++ ext) other) eqn:E; [|reflexivity].
  pose proof (endswith_last _ _ _ E Hd) as Hl.
  rewrite last_char_app in Hl by (intros ->; discriminate).
  congruence.
Qed.

(** ** More invariants *)

Lemma phase_frame (s s' : session) :
  quiz_started s' = quiz_started s -> questions s' = questions s ->
  current_question s' = current_question s ->
  phase_of s' = phase_of s.
Proof. unfold phase_of. now intros -> -> ->. Qed.

(** An answered flag belongs to a question in progress. *)
Lemma transition_answered (s s' : session) :
  (answered s = true -> phase_of s = InProgress (current_question s)) ->
  transition s s' ->
  answered s' = true -> phase_of s' = InProgress (current_question s').
Proof.
  intros IH Ht.
  inversion Ht as [ | v Hq Hv' | Hp | Hp Ha | Hp Ha | Hp Ha ]; subst.
  - exact IH.
  - discriminate.
  - intros Ha. specialize (IH Ha). congruence.
  - intros _. now rewrite (phase_frame s) by reflexivity.
  - intros _. now rewrite (phase_frame s) by reflexivity.
  - discriminate.
Qed.

Section MoreFacts2.

Variable py_str : value -> string.

Lemma reachable_answered (s : session) :
  reachable py_str s ->
  answered s = true -> phase_of s = InProgress (current_question s).
Proof.
  induction 1 as [|s inp Hr IH Hin]; [discriminate|].
  rewrite step_state. apply (transition_answered s); [exact IH|].
  destruct (reachable_inv py_str s Hr) as (Hv & (n & Hn & Hi) & _).
  apply run_transition; [assumption|lia|assumption].
Qed.

End MoreFacts2.


(** * More of the script *)

(** ** Runs that change nothing *)

(** X1: a run that no button click triggered (a radio selection, a slider
    move, an upload) leaves the session state as it is, whatever the state
    holds and even when rendering it raises. *)
Theorem idle_run_changes_nothing (py_str : value -> string) (s : session)
    (inp : widgets) :
  step py_str s (no_click inp) = s.
Proof.
  rewrite step_state. now apply run_idle.
Qed.

(** X2: on a question already answered a click on [Submit Answer] is not
    looked at: the state is unchanged, the page has no [Submit Answer]
    button, its radio is disabled and [Next Question] is on offer. *)
Theorem submit_answered_ignored (py_str : value -> string) (s : session)
    (inp : widgets) (qs : list value) (q : value) :
  at_question s qs q -> has_fields q = true -> answered s = true ->
  clicked inp = Some SubmitAnswer ->
  step py_str s inp = s /\
  ~ In (st_button SubmitAnswer) (shown py_str s inp) /\
  In (st_button NextQuestion) (shown py_str s inp) /\
  existsb is_enabled_radio (shown py_str s inp) = false.
Proof.
  intros Hat Hf Ha Hcl.
  destruct (run_submit_answered py_str s inp qs q Hat Hf Ha Hcl)
    as (Hgo & Hst & Hsub & Hnext & Hradio).
  rewrite step_state, shown_go by (rewrite Hgo; discriminate).
  repeat split; assumption.
Qed.

Lemma submit_answered_ignored_witness :
  step Examples.str Examples.right (Examples.answer PickA) = Examples.right.
Proof.
  assert (Hat : at_question Examples.right [Examples.q1] Examples.q1)
    by (repeat split; first [reflexivity | lia]).
  exact (proj1 (submit_answered_ignored Examples.str Examples.right
                  (Examples.answer PickA) [Examples.q1] Examples.q1
                  Hat eq_refl eq_refl eq_refl)).
Defined.

(** X3: a click on [Generate Questions] loads a question set exactly when a
    file is uploaded, the quiz is not started, the text of the file could be
    extracted and the answer of the service parses; the new state is then
    the parsed value with index, score and streak 0, whatever the state was.
    In every other case the state is unchanged. *)
Theorem generate_loads_only_when_ready (py_str : value -> string)
    (s : session) (inp : widgets) :
  clicked inp = Some GenerateQuestions ->
  step py_str s inp
  = match quiz_started s, uploaded_file inp with
    | false, Some f =>
        match extractor f, service inp with
        | Some (inr _), GenText _ (Some v) => mkSession v 0 0 0 true false
        | _, _ => s
        end
    | _, _ => s
    end.
Proof.
  intros Hc. rewrite step_state.
  destruct (quiz_started s) eqn:Hs;
    [apply run_generate_elsewhere; auto|].
  destruct (uploaded_file inp) as [f|] eqn:Hu;
    [|apply run_generate_elsewhere; auto].
  destruct (extractor f) as [[e|text]|] eqn:He.
  - rewrite (run_unreadable py_str s inp f Hs Hu) by (rewrite He; discriminate).
    reflexivity.
  - rewrite (run_preview py_str s inp f text Hs Hu He), Hc.
    now destruct (service inp) as [e|raw [v|]].
  - rewrite (run_unreadable py_str s inp f Hs Hu) by (rewrite He; discriminate).
    reflexivity.
Qed.

Lemma generate_loads_only_when_ready_witness :
  step Examples.str Examples.asked (Examples.load "[]" (VList [])) = Examples.asked.
Proof.
  exact (generate_loads_only_when_ready Examples.str Examples.asked
           (Examples.load "[]" (VList [])) eq_refl).
Defined.

(** ** Uploads *)

(** X4: a file whose name has none of the four extensions ends the run at
    the error message: nothing else is rendered (no preview, no
    [Generate Questions] button), no click is looked at and the state is
    unchanged. *)
Theorem unsupported_file_stops_run (py_str : value -> string) (s : session)
    (inp : widgets) (f : upload) :
  quiz_started s = false -> uploaded_file inp = Some f ->
  extractor f = None ->
  interact py_str (Some s) inp
  = (Halt Returned,
     mkWorld s (page_head ++ [st_error "Unsupported file format"])).
Proof.
  intros Hs Hu He. unfold interact.
  rewrite (run_unreadable py_str s inp f Hs Hu) by (rewrite He; discriminate).
  now rewrite He.
Qed.

Lemma unsupported_file_stops_run_witness :
  interact Examples.str (Some fresh)
    (MoreExamples.with_file MoreExamples.scan (Some GenerateQuestions)
       (GenText "[]" (Some (VList []))))
  = (Halt Returned,
     mkWorld fresh (page_head ++ [st_error "Unsupported file format"])).
Proof.
  exact (unsupported_file_stops_run Examples.str fresh
           (MoreExamples.with_file MoreExamples.scan (Some GenerateQuestions)
              (GenText "[]" (Some (VList []))))
           MoreExamples.scan eq_refl eq_refl eq_refl).
Defined.

(** X5: when the extractor chosen for the file raises, the run ends at the
    error message, which carries the text of the exception; nothing else is
    rendered and the state is unchanged. *)
Theorem failed_extraction_stops_run (py_str : value -> string) (s : session)
    (inp : widgets) (f : upload) (e : string) :
  quiz_started s = false -> uploaded_file inp = Some f ->
  extractor f = Some (inl e) ->
  interact py_str (Some s) inp
  = (Halt Returned,
     mkWorld s (page_head ++ [st_error ("Failed to extract text: " ++ e)])).
Proof.
  intros Hs Hu He. unfold interact.
  rewrite (run_unreadable py_str s inp f Hs Hu) by (rewrite He; discriminate).
  now rewrite He.
Qed.

Lemma failed_extraction_stops_run_witness :
  interact Examples.str (Some fresh)
    (MoreExamples.with_file MoreExamples.broken None Examples.idle)
  = (Halt Returned,
     mkWorld fresh
       (page_head ++ [st_error "Failed to extract text: EOF marker not found"])).
Proof.
  exact (failed_extraction_stops_run Examples.str fresh
           (MoreExamples.with_file MoreExamples.broken None Examples.idle)
           MoreExamples.broken "EOF marker not found" eq_refl eq_refl eq_refl).
Defined.

(** X6: the extension alone selects the extractor, for every base name:
    [.pdf] the PDF reader, [.docx] the DOCX reader, [.txt] and [.md] the
    UTF-8 decoder.  No name ends in two of the extensions, so the order of
    the tests in the script plays no part. *)
Theorem extension_selects_extractor (base : string)
    (pdf docx utf8 : string + string) :
  extractor (mkUpload (base ++ ".pdf") pdf docx utf8) = Some pdf /\
  extractor (mkUpload (base ++ ".docx") pdf docx utf8) = Some docx /\
  extractor (mkUpload (base ++ ".txt") pdf docx utf8) = Some utf8 /\
  extractor (mkUpload (base ++ ".md") pdf docx utf8) = Some utf8.
Proof.
  unfold extractor. cbn [name as_pdf as_docx as_utf8]. repeat split.
  - now rewrite endswith_app.
  - rewrite (endswith_other base ".docx" ".pdf" "x" "f") by (reflexivity || discriminate).
    now rewrite endswith_app.
  - rewrite (endswith_other base ".txt" ".pdf" "t" "f") by (reflexivity || discriminate).
    rewrite (endswith_other base ".txt" ".docx" "t" "x") by (reflexivity || discriminate).
    now rewrite endswith_app.
  - rewrite (endswith_other base ".md" ".pdf" "d" "f") by (reflexivity || discriminate).
    rewrite (endswith_other base ".md" ".docx" "d" "x") by (reflexivity || discriminate).
    rewrite endswith_app. now rewrite orb_true_r.
Qed.

(** X7: on a quiz not started with a readable file, the page shows the
    preview and the [Generate Questions] button and nothing more, unless
    that button was clicked.  The preview is the whole text when it has at
    most 1000 characters, and never has more than 1003. *)
Theorem preview_is_bounded (py_str : value -> string) (s : session)
    (inp : widgets) (f : upload) (text : string) :
  quiz_started s = false -> uploaded_file inp = Some f ->
  extractor f = Some (inr text) ->
  clicked inp <> Some GenerateQuestions ->
  interact py_str (Some s) inp
  = (Go tt,
     mkWorld s (page_head
                ++ [st_expander "Preview Extracted Text (first 1000 chars)";
                    st_write (preview text);
                    st_button GenerateQuestions])) /\
  (str_len (preview text) <= 1003)%nat /\
  ((str_len text <= 1000)%nat -> preview text = text).
Proof.
  intros Hs Hu He Hc. split; [|split; [apply preview_bound|apply preview_short]].
  unfold interact. rewrite (run_preview py_str s inp f text Hs Hu He).
  destruct (clicked inp) as [[]|]; try reflexivity. congruence.
Qed.

Lemma preview_is_bounded_witness :
  interact Examples.str (Some fresh) (Examples.widgets_of None PickA Examples.idle)
  = (Go tt,
     mkWorld fresh
       (page_head
        ++ [st_expander "Preview Extracted Text (first 1000 chars)";
            st_write "Sepsis. Shock.";
            st_button GenerateQuestions])).
Proof.
  refine (proj1 (preview_is_bounded Examples.str fresh
                   (Examples.widgets_of None PickA Examples.idle)
                   Examples.notes "Sepsis. Shock." eq_refl eq_refl eq_refl _)).
  discriminate.
Defined.

(** X8: when the call to the generation service raises, the page shows the
    message of the exception after the preview, no rerun is asked for and
    the state is unchanged: the quiz stays not started. *)
Theorem service_failure_is_reported (py_str : value -> string) (s : session)
    (inp : widgets) (f : upload) (text e : string) :
  quiz_started s = false -> uploaded_file inp = Some f ->
  extractor f = Some (inr text) -> clicked inp = Some GenerateQuestions ->
  service inp = GenRaises e ->
  interact py_str (Some s) inp
  = (Go tt,
     mkWorld s (page_head
                ++ [st_expander "Preview Extracted Text (first 1000 chars)";
                    st_write (preview text);
                    st_button GenerateQuestions;
                    st_spinner "Generating questions...";
                    st_error ("Error generating questions: " ++ e)])).
Proof.
  intros Hs Hu He Hc Hg. unfold interact.
  now rewrite (run_preview py_str s inp f text Hs Hu He), Hc, Hg.
Qed.

Lemma service_failure_is_reported_witness :
  step Examples.str fresh
    (Examples.widgets_of (Some GenerateQuestions) PickA (GenRaises "timeout"))
  = fresh.
Proof.
  exact (f_equal (fun r => state (snd r))
           (service_failure_is_reported Examples.str fresh
              (Examples.widgets_of (Some GenerateQuestions) PickA (GenRaises "timeout"))
              Examples.notes "Sepsis. Shock." "timeout"
              eq_refl eq_refl eq_refl eq_refl eq_refl)).
Defined.

(** ** Sessions that cannot be rendered *)

(** X9: when the stored question set is a value [len] refuses (the service
    answered with a JSON number, boolean or null), every run stops with a
    [TypeError] right after the page head, before any button is looked at.
    No interaction, [Restart Quiz] included, and no sequence of interactions
    changes the session state again. *)
Theorem unrenderable_is_stuck (py_str : value -> string) (s : session) :
  phase_of s = Unrenderable ->
  (forall inp, interact py_str (Some s) inp
               = (Halt (Raised TypeError), mkWorld s page_head)) /\
  (forall l, fold_left (step py_str) l s = s).
Proof.
  intros Hp.
  assert (H1 : forall inp, interact py_str (Some s) inp
                           = (Halt (Raised TypeError), mkWorld s page_head)).
  { intros inp. unfold interact. now rewrite (run_unrenderable py_str s inp Hp). }
  split; [exact H1|].
  induction l as [|inp l IH]; [reflexivity|].
  cbn [fold_left]. unfold step at 2. now rewrite H1.
Qed.

Lemma unrenderable_is_stuck_witness :
  step Examples.str fresh (Examples.load "5" (VInt 5)) = MoreExamples.five /\
  fold_left (step Examples.str)
    [Examples.restart; Examples.next; Examples.load "[]" (VList [])]
    MoreExamples.five
  = MoreExamples.five.
Proof.
  split; [reflexivity|].
  exact (proj2 (unrenderable_is_stuck Examples.str MoreExamples.five eq_refl) _).
Defined.

(** X10: in a session reached by interactions whose loads are question
    sets, no interaction ends in an uncaught exception, whatever is clicked
    or selected. *)
Theorem reachable_never_raises (py_str : value -> string) (s : session)
    (inp : widgets) :
  reachable py_str s -> valid_input inp ->
  raises (interact py_str (Some s) inp) = false.
Proof.
  intros Hr Hin.
  destruct (reachable_inv py_str s Hr) as (Hv & (n & Hn & Hi) & _).
  pose proof (run_no_raise py_str s inp Hv (proj1 Hi)) as H1.
  unfold interact.
  destruct (fst (run py_str (Some s) inp)) as [[]|[| |e]] eqn:E;
    try exact H1.
  pose proof (reach_step py_str s inp Hr Hin) as Hr'.
  destruct (reachable_inv py_str _ Hr') as (Hv' & (n' & Hn' & Hi') & _).
  rewrite step_state in Hv', Hi'.
  exact (run_no_raise py_str _ (no_click inp) Hv' (proj1 Hi')).
Qed.

Lemma reachable_never_raises_witness :
  raises (interact Examples.str (Some fresh)
            (Examples.load "..." (VList Examples.abc))) = false.
Proof.
  exact (reachable_never_raises Examples.str fresh
           (Examples.load "..." (VList Examples.abc))
           (reach_fresh Examples.str) eq_refl).
Defined.

(** ** What a click can touch *)

(** X11: whatever the session state holds, [Submit Answer] touches neither
    the question set nor the index nor the started flag, and moves the
    counters in one of three ways: not at all, score and streak up by one
    together, or the streak to 0 with the score kept. *)
Theorem submit_touches_only_counters (py_str : value -> string) (s : session)
    (inp : widgets) :
  clicked inp = Some SubmitAnswer ->
  let s' := step py_str s inp in
  questions s' = questions s /\ current_question s' = current_question s /\
  quiz_started s' = quiz_started s /\
  ((score s' = score s /\ streak s' = streak s)
   \/ (score s' = score s + 1 /\ streak s' = streak s + 1)
   \/ (score s' = score s /\ streak s' = 0)).
Proof.
  intros Hc s'. subst s'. rewrite step_state.
  pose proof (run_frame py_str s inp) as H. now rewrite Hc in H.
Qed.

Lemma submit_touches_only_counters_witness :
  questions (step Examples.str Examples.asked (Examples.answer PickA))
  = VList [Examples.q1].
Proof.
  exact (proj1 (submit_touches_only_counters Examples.str Examples.asked
                  (Examples.answer PickA) eq_refl)).
Defined.

(** X12: whatever the session state holds, [Next Question] either changes
    nothing or, on an answered question only, adds one to the index and
    clears the answered flag; question set, score, streak and started flag
    are never touched, and the index never moves by more than one. *)
Theorem next_touches_only_index (py_str : value -> string) (s : session)
    (inp : widgets) :
  clicked inp = Some NextQuestion ->
  step py_str s inp = s
  \/ (answered s = true
      /\ step py_str s inp
         = set_answered false (set_current_question (current_question s + 1) s)).
Proof.
  intros Hc. rewrite step_state.
  pose proof (run_frame py_str s inp) as H. now rewrite Hc in H.
Qed.

Lemma next_touches_only_index_witness :
  step Examples.str Examples.over Examples.next = Examples.over
  \/ (answered Examples.over = true
      /\ step Examples.str Examples.over Examples.next
         = set_answered false
             (set_current_question (current_question Examples.over + 1)
                Examples.over)).
Proof.
  exact (next_touches_only_index Examples.str Examples.over Examples.next eq_refl).
Defined.

(** ** The end of a quiz *)

(** X13: in every session the script can reach, whatever the generation
    service answered, a completed quiz has its index at the number of
    entries of the question set, no answer pending, and a final score
    between 0 and that number, the streak between 0 and the score. *)
Theorem final_score_is_bounded (py_str : value -> string) (s : session) :
  reachable_any py_str s -> phase_of s = Completed ->
  exists n, len (questions s) = Ok n /\ current_question s = n /\
            answered s = false /\
            0 <= streak s <= score s /\ score s <= n.
Proof.
  intros Hr Hp.
  destruct (reachable_any_inv py_str s Hr) as (Hi & Hk & Ha & Hn & Hs).
  destruct (phase_completed s Hp) as (Hst & n & Hlen & Hge).
  assert (Hans : answered s = false).
  { destruct (answered s) eqn:E; [|reflexivity].
    destruct (Ha eq_refl) as [Hp' _]. congruence. }
  exists n. specialize (Hn n Hlen).
  unfold answered_count in Hs. rewrite Hans in Hs.
  destruct Hs as [Hs|(_ & _ & Hp' & _)]; [|congruence].
  repeat split; try assumption; lia.
Qed.

Lemma final_score_is_bounded_witness :
  let s := fold_left (step Examples.str) Unchecked.mixed fresh in
  phase_of s = Completed /\ current_question s = 3 /\ score s <= 3.
Proof.
  assert (Hr : reachable_any Examples.str
                 (fold_left (step Examples.str) Unchecked.mixed fresh))
    by (cbn [fold_left Unchecked.mixed]; repeat apply any_step; apply any_fresh).
  destruct (final_score_is_bounded Examples.str _ Hr eq_refl)
    as (n & Hn & Hi & _ & _ & Hs).
  assert (E : n = 3) by (vm_compute in Hn; now injection Hn as <-).
  rewrite E in Hi, Hs. split; [reflexivity|split; [exact Hi|exact Hs]].
Defined.

(** X14: nothing of a finished quiz survives into the next one: after
    [Restart Quiz] and a load, the state is the loaded value with index,
    score and streak 0 and no answer, whatever score, streak and questions
    the finished quiz had left behind. *)
Theorem restart_then_load_is_clean (py_str : value -> string) (s : session)
    (restart_click load_click : widgets) (f : upload) (text raw : string)
    (v : value) :
  phase_of s = Completed ->
  clicked restart_click = Some RestartQuiz ->
  uploaded_file load_click = Some f -> extractor f = Some (inr text) ->
  clicked load_click = Some GenerateQuestions ->
  service load_click = GenText raw (Some v) ->
  step py_str (step py_str s restart_click) load_click
  = mkSession v 0 0 0 true false.
Proof.
  intros Hp Hr Hu He Hc Hg.
  rewrite (step_state py_str s), (run_restart py_str s restart_click Hr), Hp.
  rewrite step_state.
  now destruct (run_load py_str (set_quiz_started false s) load_click f text raw v
                  eq_refl Hu He Hc Hg) as [_ ->].
Qed.

Lemma restart_then_load_is_clean_witness :
  step Examples.str (step Examples.str Examples.over Examples.restart)
    (Examples.load "..." (VList Examples.abc))
  = mkSession (VList Examples.abc) 0 0 0 true false.
Proof.
  exact (restart_then_load_is_clean Examples.str Examples.over Examples.restart
           (Examples.load "..." (VList Examples.abc)) Examples.notes
           "Sepsis. Shock." "..." (VList Examples.abc)
           eq_refl eq_refl eq_refl eq_refl eq_refl eq_refl).
Defined.

Section Finish.

Variables (py_str : value -> string) (f : upload) (n : Z) (g : generation).

(** Answering the questions [rest], rightly or wrongly, one after the
    other, after the questions [past]. *)
Lemma finish_rest (picks : list pick) (rest past : list value) (sc st : Z) :
  forallb has_fields rest = true -> List.length picks = List.length rest ->
  exists sc' st',
    fold_left (step py_str) (flat_map (answer_with f n g) picks)
      (mkSession (VList (past ++ rest)) (Z.of_nat (List.length past)) sc st
         true false)
    = mkSession (VList (past ++ rest))
        (Z.of_nat (List.length past) + Z.of_nat (List.length rest))
        sc' st' true false
    /\ sc <= sc' <= sc + Z.of_nat (List.length rest).
Proof.
  revert picks past sc st.
  induction rest as [|q rest IH]; intros picks past sc st Hall Hlen.
  - destruct picks; [|discriminate]. exists sc, st. cbn.
    split; [f_equal|]; lia.
  - destruct picks as [|p picks]; [discriminate|].
    cbn [forallb] in Hall. apply andb_prop in Hall. destruct Hall as [Hf Hall].
    destruct (has_fields_inv q Hf)
      as (_ & _ & _ & _ & _ & _ & c & _ & _ & _ & _ & _ & _ & _ & Hc & _).
    cbn [flat_map app]. unfold answer_with at 1. cbn [app fold_left].
    assert (Hat : forall sc' st' a,
               at_question (mkSession (VList (past ++ q :: rest))
                              (Z.of_nat (List.length past)) sc' st' true a)
                 (past ++ q :: rest) q).
    { intros. repeat split; cbn; [lia|].
      rewrite Nat2Z.id, nth_error_app2 by lia. now rewrite Nat.sub_diag. }
    rewrite (step_state py_str
               (mkSession (VList (past ++ q :: rest))
                  (Z.of_nat (List.length past)) sc st true false)).
    destruct (run_submit py_str _ (press f n g SubmitAnswer p) _ q c
                (Hat sc st false) Hf eq_refl Hc eq_refl) as [_ ->].
    assert (Hnext : forall sc1 st1,
               step py_str
                 (mkSession (VList (past ++ q :: rest))
                    (Z.of_nat (List.length past)) sc1 st1 true true)
                 (press f n g NextQuestion p)
               = mkSession (VList ((past ++ [q]) ++ rest))
                   (Z.of_nat (List.length (past ++ [q]))) sc1 st1 true false).
    { intros sc1 st1. rewrite step_state.
      destruct (run_next py_str _ (press f n g NextQuestion p) _ q
                  (Hat sc1 st1 true) Hf eq_refl eq_refl) as [_ ->].
      cbv [set_answered set_current_question questions current_question
           score streak quiz_started answered].
      rewrite <- app_assoc, length_app. cbn [app List.length].
      f_equal. lia. }
    assert (Hshape : (past ++ q :: rest = (past ++ [q]) ++ rest)%list)
      by now rewrite <- app_assoc.
    destruct (str_eq (pick_label (radio (press f n g SubmitAnswer p))) c);
      cbv [set_answered set_streak set_score questions current_question
           score streak quiz_started answered];
      rewrite Hnext;
      [destruct (IH picks (past ++ [q])%list (sc + 1) (st + 1) Hall)
         as (sc' & st' & -> & Hb)
      |destruct (IH picks (past ++ [q])%list sc 0 Hall)
         as (sc' & st' & -> & Hb)];
      try (cbn in Hlen; lia);
      exists sc', st'; rewrite Hshape, length_app; cbn [List.length];
      (split; [f_equal|]; lia).
Qed.

End Finish.

(** X15: a started quiz whose records from the current question on all
    have the keys the script reads can be brought to its end: from a
    question not yet answered, submitting any answer and clicking next for
    each of the questions left completes the quiz, with the index at the
    number of questions and the score raised by at most one per question
    left. *)
Theorem quiz_can_be_finished (py_str : value -> string) (f : upload) (n : Z)
    (g : generation) (s : session) (qs : list value) (picks : list pick) :
  quiz_started s = true -> answered s = false ->
  questions s = VList qs ->
  forallb has_fields (skipn (Z.to_nat (current_question s)) qs) = true ->
  0 <= current_question s <= Z.of_nat (List.length qs) ->
  Z.of_nat (List.length picks) = Z.of_nat (List.length qs) - current_question s ->
  let s' := fold_left (step py_str) (flat_map (answer_with f n g) picks) s in
  phase_of s' = Completed /\
  current_question s' = Z.of_nat (List.length qs) /\
  score s <= score s' <= score s + Z.of_nat (List.length picks).
Proof.
  intros Hst Ha Hq Hv Hi Hlen s'. subst s'.
  destruct s as [qv i sc st started ans]. cbn in Hst, Ha, Hq, Hv, Hi, Hlen.
  subst. set (k := Z.to_nat i) in *.
  assert (Hk : (k <= List.length qs)%nat) by lia.
  pose proof (firstn_skipn k qs) as Hsplit.
  assert (Hpast : List.length (firstn k qs) = k) by (rewrite length_firstn; lia).
  assert (Hrest : List.length (skipn k qs) = (List.length qs - k)%nat)
    by apply length_skipn.
  destruct (finish_rest py_str f n g picks (skipn k qs) (firstn k qs) sc st Hv)
    as (sc' & st' & Hrun & Hb); [lia|].
  rewrite Hsplit, Hpast in Hrun.
  replace (Z.of_nat k) with i in Hrun by lia.
  rewrite Hrun. cbn [score current_question].
  rewrite Hrest in *.
  repeat split; try lia.
  unfold phase_of. cbn.
  replace (Z.of_nat (List.length qs) <=? i + Z.of_nat (List.length qs - k))
    with true by (symmetry; apply Z.leb_le; lia).
  reflexivity.
Qed.

Lemma quiz_can_be_finished_witness :
  phase_of (fold_left (step Examples.str)
              (flat_map (answer_with Examples.notes 5 Examples.idle)
                 [PickD; PickD; PickD])
              (mkSession (VList Examples.abc) 0 0 0 true false))
  = Completed.
Proof.
  refine (proj1 (quiz_can_be_finished Examples.str Examples.notes 5 Examples.idle
                   (mkSession (VList Examples.abc) 0 0 0 true false)
                   Examples.abc [PickD; PickD; PickD]
                   eq_refl eq_refl eq_refl eq_refl _ eq_refl)).
  cbn. lia.
Defined.


(** X25: a quiz held up at a question not yet answered whose record cannot
    be read or lacks a key stays there: whatever is clicked and however
    often, the question is never marked answered, the index and the
    question set never change, and the quiz is never completed (nor, with
    that, restarted).  Only score and streak can still move. *)
Theorem held_up_is_forever (py_str : value -> string) (s : session)
    (l : list widgets) :
  held_up s ->
  let s' := fold_left (step py_str) l s in
  answered s' = false /\ quiz_started s' = true /\
  questions s' = questions s /\ current_question s' = current_question s /\
  phase_of s' = InProgress (current_question s) /\ phase_of s' <> Completed.
Proof.
  intros Hs s'. subst s'.
  destruct (held_up_forever py_str s l Hs)
    as ((Hst & Ha & Hp & Hf) & Hq & Hi).
  rewrite Hi in Hp. repeat split; try assumption. congruence.
Qed.

Lemma held_up_is_forever_witness :
  let s' := fold_left (step Examples.str)
              [Examples.answer PickA; Examples.next; Examples.restart;
               Examples.answer PickB]
              Unchecked.bare_asked in
  answered s' = false /\ current_question s' = 0.
Proof.
  assert (Hs : held_up Unchecked.bare_asked) by (repeat split; reflexivity).
  destruct (held_up_is_forever Examples.str Unchecked.bare_asked
              [Examples.answer PickA; Examples.next; Examples.restart;
               Examples.answer PickB] Hs)
    as (Ha & _ & _ & Hi & _).
  split; assumption.
Defined.

(** ** Characters *)

Lemma implode_app (l1 l2 : list string) :
  implode (l1 ++ l2) = implode l1 ++ implode l2.
Proof.
  induction l1 as [|c l1 IH]; [reflexivity|].
  cbn [app]. change (implode (c :: l1 ++ l2)) with (c ++ implode (l1 ++ l2)).
  change (implode (c :: l1)) with (c ++ implode l1).
  rewrite IH. clear IH.
  induction c as [|a c IHc]; cbn [append]; [reflexivity|now rewrite IHc].
Qed.

Lemma chars_nonempty (a : ascii) (t : string) : chars (String a t) <> [].
Proof.
  cbn [chars]. destruct t as [|b t]; [discriminate|].
  destruct (is_continuation b); [|discriminate].
  destruct (chars (String b t)); discriminate.
Qed.

Lemma implode_chars (s : string) : implode (chars s) = s.
Proof.
  induction s as [|a t IH]; [reflexivity|].
  cbn [chars]. destruct t as [|b t]; [reflexivity|].
  destruct (is_continuation b).
  - destruct (chars (String b t)) as [|c cs] eqn:E.
    + now apply chars_nonempty in E.
    + cbn in IH |- *. now rewrite IH.
  - cbn [implode fold_right append]. now rewrite <- IH at 2.
Qed.

(** The shape of [chars s]: it begins with the first byte of [s]. *)
Lemma chars_shape (a : ascii) (t : string) :
  exists r cs, chars (String a t) = String a r :: cs
               /\ all_continuation r = true /\ forallb is_start cs = true.
Proof.
  revert a. induction t as [|b t IH]; intros a.
  - exists EmptyString, []. repeat split.
  - destruct (IH b) as (r & cs & E & Hr & Hcs).
    cbn [chars]. cbn [chars] in E.
    destruct (is_continuation b) eqn:Hb.
    + rewrite E. exists (String b r), cs. cbn. now rewrite Hb, Hr.
    + rewrite E. exists EmptyString, (String b r :: cs). cbn.
      now rewrite Hb, Hr, Hcs.
Qed.

Lemma chars_well_split (s : string) : well_split (chars s) = true.
Proof.
  destruct s as [|a t]; [reflexivity|].
  destruct (chars_shape a t) as (r & cs & -> & Hr & Hcs).
  cbn. now rewrite Hr, Hcs.
Qed.

Lemma chars_char_app (a : ascii) (r rest : string) :
  all_continuation r = true ->
  (forall b t, rest = String b t -> is_continuation b = false) ->
  chars (String a (r ++ rest)) = String a r :: chars rest.
Proof.
  revert a. induction r as [|b r IH]; intros a Hr Hrest.
  - cbn [append chars]. destruct rest as [|c t]; [reflexivity|].
    now rewrite (Hrest c t eq_refl).
  - cbn in Hr. apply andb_prop in Hr. destruct Hr as [Hb Hr].
    cbn [append]. cbn [chars]. rewrite Hb.
    change (chars (String b (r ++ rest))) with (chars (String b (r ++ rest))).
    assert (E : chars (String b (r ++ rest)) = String b r :: chars rest)
      by now apply IH.
    cbn [chars] in E. now rewrite E.
Qed.

Lemma starts_implode (cs : list string) :
  forallb is_start cs = true ->
  forall b t, implode cs = String b t -> is_continuation b = false.
Proof.
  destruct cs as [|c cs]; [discriminate|].
  cbn. intros H b t E. apply andb_prop in H. destruct H as [Hc _].
  destruct c as [|a r]; [discriminate|].
  cbn in E. injection E as <- _.
  cbn in Hc. apply andb_prop in Hc. destruct Hc as [Hc _].
  now apply negb_true_iff in Hc.
Qed.

Lemma forallb_start_char (cs : list string) :
  forallb is_start cs = true -> well_split cs = true.
Proof.
  destruct cs as [|c cs]; [reflexivity|]. cbn.
  intros H. apply andb_prop in H. destruct H as [Hc Hcs]. rewrite Hcs.
  destruct c as [|a r]; [discriminate|].
  cbn in Hc |- *. apply andb_prop in Hc. now rewrite (proj2 Hc).
Qed.

Lemma chars_implode (cs : list string) :
  well_split cs = true -> chars (implode cs) = cs.
Proof.
  destruct cs as [|c cs]; [reflexivity|].
  cbn [well_split]. intros H. apply andb_prop in H. destruct H as [Hc Hcs].
  revert c Hc. induction cs as [|d cs IH]; intros c Hc.
  - destruct c as [|a r]; [discriminate|]. cbn in Hc.
    cbn [implode fold_right]. 
    replace (String a r ++ EmptyString) with (String a (r ++ EmptyString))
      by reflexivity.
    rewrite chars_char_app; [reflexivity|assumption|discriminate].
  - destruct c as [|a r]; [discriminate|]. cbn in Hc.
    cbn [forallb] in Hcs. apply andb_prop in Hcs. destruct Hcs as [Hd Hcs].
    change (implode (String a r :: d :: cs))
      with (String a (r ++ implode (d :: cs))).
    rewrite chars_char_app; [|assumption|].
    + f_equal. apply IH; [assumption|].
      destruct d as [|b q]; [discriminate|].
      cbn in Hd |- *. apply andb_prop in Hd. exact (proj2 Hd).
    + apply starts_implode. cbn [forallb]. now rewrite Hd, Hcs.
Qed.

Lemma well_split_app_r (l1 l2 : list string) :
  well_split (l1 ++ l2) = true -> well_split l2 = true.
Proof.
  destruct l1 as [|c l1]; [trivial|].
  cbn. intros H. apply andb_prop in H. destruct H as [_ H].
  rewrite forallb_app in H. apply andb_prop in H.
  now apply forallb_start_char.
Qed.

Lemma well_split_app_l (l1 l2 : list string) :
  well_split (l1 ++ l2) = true -> well_split l1 = true.
Proof.
  destruct l1 as [|c l1]; [reflexivity|].
  cbn. intros H. apply andb_prop in H. destruct H as [Hc H].
  rewrite forallb_app in H. apply andb_prop in H.
  now rewrite Hc, (proj1 H).
Qed.

(** ** Stripping *)

Section DropWhile.

Context {A : Type} (p : A -> bool).

Lemma drop_while_split (l : list A) :
  exists pre, l = (pre ++ drop_while p l)%list /\ forallb p pre = true.
Proof.
  induction l as [|a l (pre & E & Hp)]; [now exists []|].
  cbn. destruct (p a) eqn:Ha.
  - exists (a :: pre). cbn. rewrite Ha, Hp. split; [now f_equal|reflexivity].
  - now exists [].
Qed.

Lemma drop_while_head (l l' : list A) (a : A) :
  drop_while p l = a :: l' -> p a = false.
Proof.
  induction l as [|b l IH]; [discriminate|].
  cbn. destruct (p b) eqn:Hb; [exact IH|]. now intros [= <- _].
Qed.

Lemma drop_while_fixed (l : list A) :
  (forall a l', l = a :: l' -> p a = false) -> drop_while p l = l.
Proof.
  destruct l as [|a l]; [reflexivity|].
  intros H. cbn. now rewrite (H a l eq_refl).
Qed.

Lemma drop_while_twice (l : list A) :
  drop_while p (drop_while p l) = drop_while p l.
Proof.
  apply drop_while_fixed. intros a l'. apply drop_while_head.
Qed.

Lemma drop_while_all (l : list A) :
  forallb p l = true -> drop_while p l = [].
Proof.
  induction l as [|a l IH]; [reflexivity|].
  cbn. intros H. apply andb_prop in H. destruct H as [-> H]. now apply IH.
Qed.

(** One more element that [p] holds of, at the far end. *)
Lemma drop_while_snoc (l : list A) (x : A) :
  p x = true ->
  drop_while p (l ++ [x])
  = match drop_while p l with
    | [] => []
    | _ => (drop_while p l ++ [x])%list
    end.
Proof.
  intros Hx. induction l as [|a l IH]; cbn; [now rewrite Hx|].
  destruct (p a); [exact IH|reflexivity].
Qed.

End DropWhile.

(** What [strip] keeps is a stretch of the characters it was given. *)
Lemma stripped_stretch (cs : list string) :
  exists pre post, cs = (pre ++ stripped cs ++ post)%list.
Proof.
  unfold stripped.
  destruct (drop_while_split is_space cs) as (pre & E & _).
  destruct (drop_while_split is_space (rev (drop_while is_space cs)))
    as (post & E' & _).
  exists pre, (rev post).
  rewrite <- rev_app_distr, <- E', rev_involutive. exact E.
Qed.

Lemma stripped_well_split (cs : list string) :
  well_split cs = true -> well_split (stripped cs) = true.
Proof.
  intros H. destruct (stripped_stretch cs) as (pre & post & E).
  rewrite E in H. apply well_split_app_r in H. now apply well_split_app_l in H.
Qed.

(** Neither end of what [strip] keeps is whitespace. *)
Lemma stripped_last (cs : list string) (c : string) (l : list string) :
  rev (stripped cs) = c :: l -> is_space c = false.
Proof.
  unfold stripped. rewrite rev_involutive. apply drop_while_head.
Qed.

Lemma stripped_first (cs : list string) (c : string) (l : list string) :
  stripped cs = c :: l -> is_space c = false.
Proof.
  intros E.
  destruct (drop_while_split is_space (rev (drop_while is_space cs)))
    as (post & E' & _).
  apply (f_equal (@rev string)) in E'.
  rewrite rev_involutive, rev_app_distr in E'.
  fold (stripped cs) in E'. rewrite E in E'. cbn in E'.
  now apply drop_while_head in E'.
Qed.

Lemma stripped_twice (cs : list string) :
  stripped (stripped cs) = stripped cs.
Proof.
  unfold stripped at 1.
  rewrite (drop_while_fixed is_space (stripped cs))
    by (intros a l'; apply stripped_first).
  unfold stripped. rewrite rev_involutive, drop_while_twice. reflexivity.
Qed.

Lemma strip_chars (s : string) : chars (strip s) = stripped (chars s).
Proof.
  unfold strip. apply chars_implode, stripped_well_split, chars_well_split.
Qed.

Lemma strip_twice (s : string) : strip (strip s) = strip s.
Proof.
  unfold strip at 1. now rewrite strip_chars, stripped_twice.
Qed.

Lemma chars_app_start (s : string) (b : ascii) (t : string) :
  is_continuation b = false ->
  chars (s ++ String b t) = (chars s ++ chars (String b t))%list.
Proof.
  intros Hb.
  assert (H : chars (s ++ String b t)
              = chars (implode (chars s ++ chars (String b t)))).
  { now rewrite implode_app, !implode_chars. }
  rewrite H. apply chars_implode.
  destruct (chars_shape b t) as (r & cs & E & Hr & Hcs).
  destruct s as [|a s]; [exact (chars_well_split (String b t))|].
  destruct (chars_shape a s) as (r' & cs' & E' & Hr' & Hcs').
  rewrite E', E. cbn. rewrite Hr', forallb_app, Hcs'. cbn.
  now rewrite Hb, Hr, Hcs.
Qed.

(** A line feed at the end does not survive [strip]. *)
Lemma strip_line_feed (s : string) : strip (s ++ nl) = strip s.
Proof.
  unfold strip, stripped, nl.
  rewrite chars_app_start by reflexivity.
  change (chars (String "010" EmptyString)) with [nl].
  rewrite drop_while_snoc by reflexivity.
  destruct (drop_while is_space (chars s)) as [|c cs] eqn:E; [reflexivity|].
  rewrite rev_app_distr. cbn [rev app].
  change (drop_while is_space (nl :: rev cs ++ [c]))
    with (drop_while is_space (rev cs ++ [c])).
  reflexivity.
Qed.


(** ** Appending *)

Lemma str_app_nil (s : string) : s ++ EmptyString = s.
Proof. induction s as [|a s IH]; cbn; [reflexivity|now rewrite IH]. Qed.

Lemma str_app_assoc (a b c : string) : (a ++ b) ++ c = a ++ b ++ c.
Proof. induction a as [|x a IH]; cbn; [reflexivity|now rewrite IH]. Qed.

Lemma str_length_app (a b : string) :
  String.length (a ++ b) = (String.length a + String.length b)%nat.
Proof. induction a as [|x a IH]; cbn; [reflexivity|now rewrite IH]. Qed.

Lemma str_app_inv_head (a b c : string) : a ++ b = a ++ c -> b = c.
Proof.
  induction a as [|x a IH]; cbn; [trivial|]. intros [= H]. now apply IH.
Qed.

Lemma str_app_inv_tail (a b c : string) : a ++ c = b ++ c -> a = b.
Proof.
  revert b. induction a as [|x a IH]; intros [|y b] H.
  - reflexivity.
  - apply (f_equal String.length) in H. cbn in H.
    rewrite str_length_app in H. lia.
  - apply (f_equal String.length) in H. cbn in H.
    rewrite str_length_app in H. lia.
  - cbn in H. injection H as -> H. f_equal. now apply IH.
Qed.

Lemma concat_cons (sep x y : string) (l : list string) :
  String.concat sep (x :: y :: l) = x ++ sep ++ String.concat sep (y :: l).
Proof. reflexivity. Qed.

(** ** The PDF extractor *)

Lemma read_pages_texts (texts : list string) (text : string) :
  read_pages (map inr texts) text
  = inr (text ++ implode (map (fun p => p ++ nl) (filter has_text texts))).
Proof.
  revert text. induction texts as [|p texts IH]; intros text.
  - cbn. now rewrite str_app_nil.
  - cbn [map read_pages filter]. rewrite IH.
    destruct p as [|a p]; cbn [has_text]; [reflexivity|].
    cbn [map implode fold_right]. now rewrite !str_app_assoc.
Qed.

Lemma implode_lines (texts : list string) :
  texts <> [] ->
  implode (map (fun p => p ++ nl) texts) = String.concat nl texts ++ nl.
Proof.
  induction texts as [|p texts IH]; [contradiction|]. intros _.
  destruct texts as [|q texts].
  - cbn. now rewrite str_app_nil.
  - rewrite concat_cons.
    change (implode (map (fun p => p ++ nl) (p :: q :: texts)))
      with ((p ++ nl) ++ implode (map (fun p => p ++ nl) (q :: texts))).
    rewrite IH by discriminate. now rewrite !str_app_assoc.
Qed.

(** X16: when every page can be read, the text of a PDF is the texts of
    its pages that have any, in order, one line feed between two of them,
    without the whitespace at either end.  Pages without text leave no
    trace, not even an empty line. *)
Theorem pdf_text_is_joined_pages (texts : list string) :
  extract_text_from_pdf (inr (map inr texts))
  = inr (strip (String.concat nl (filter has_text texts))).
Proof.
  unfold extract_text_from_pdf. rewrite read_pages_texts. cbn [append].
  destruct (filter has_text texts) as [|p l] eqn:E; [reflexivity|].
  rewrite implode_lines by discriminate. now rewrite strip_line_feed.
Qed.

(** X17: the text of a PDF never begins or ends with a whitespace
    character, and stripping it again changes nothing. *)
Theorem pdf_text_has_no_outer_whitespace (file : pdf_file) (text : string) :
  extract_text_from_pdf file = inr text ->
  strip text = text /\
  (forall c l, chars text = c :: l -> is_space c = false) /\
  (forall c l, rev (chars text) = c :: l -> is_space c = false).
Proof.
  unfold extract_text_from_pdf.
  destruct file as [e|pages]; [discriminate|].
  destruct (read_pages pages EmptyString) as [e|raw]; [discriminate|].
  intros [= <-]. split; [apply strip_twice|].
  rewrite strip_chars. split; intros c l.
  - apply stripped_first.
  - apply stripped_last.
Qed.

Lemma pdf_text_has_no_outer_whitespace_witness :
  extract_text_from_pdf (inr [inr "Page one. "]) = inr "Page one." /\
  strip "Page one." = "Page one.".
Proof.
  split; [reflexivity|].
  exact (proj1 (pdf_text_has_no_outer_whitespace
                  (inr [inr "Page one. "]) "Page one." eq_refl)).
Defined.

Lemma read_pages_raises (texts : list string) (e : string)
    (pages : list (string + string)) (text : string) :
  read_pages (map inr texts ++ inl e :: pages) text = inl e.
Proof.
  revert text. induction texts as [|p texts IH]; intros text; [reflexivity|].
  cbn [map app read_pages]. apply IH.
Qed.

(** X18: one page that cannot be read costs the whole document: the
    extractor raises the exception of the first such page, whatever text the
    pages before it gave and whatever the pages after it hold. *)
Theorem pdf_page_failure_discards_text (texts : list string) (e : string)
    (pages : list (string + string)) :
  extract_text_from_pdf (inr (map inr texts ++ inl e :: pages)%list) = inl e.
Proof.
  unfold extract_text_from_pdf. now rewrite read_pages_raises.
Qed.

(** ** The DOCX extractor *)

Lemma lines_from_app (p s line : string) :
  no_line_feed p = true ->
  lines_from line (p ++ s) = lines_from (line ++ p) s.
Proof.
  revert line. induction p as [|a p IH]; intros line Hp.
  - cbn. now rewrite str_app_nil.
  - cbn in Hp. apply andb_prop in Hp. destruct Hp as [Ha Hp].
    apply negb_true_iff in Ha.
    cbn [append lines_from]. rewrite Ha, IH by assumption.
    now rewrite str_app_assoc.
Qed.

Lemma lines_from_concat (p : string) (l : list string) (line : string) :
  forallb no_line_feed (p :: l) = true ->
  lines_from line (String.concat nl (p :: l)) = (line ++ p) :: l.
Proof.
  revert p line. induction l as [|q l IH]; intros p line H.
  - cbn in H. rewrite andb_true_r in H.
    change (String.concat nl [p]) with p.
    rewrite <- (str_app_nil p) at 1. now rewrite lines_from_app.
  - cbn [forallb] in H. apply andb_prop in H. destruct H as [Hp H].
    rewrite concat_cons, lines_from_app by assumption.
    unfold nl at 1. cbn [append lines_from]. 
    change (Ascii.eqb "010" "010") with true. cbv iota.
    f_equal. now rewrite IH.
Qed.

(** X19: the DOCX extractor keeps every paragraph, empty ones included, in
    order, one per line: when no paragraph has a line feed in it, the lines
    of the text are the paragraphs again. *)
Theorem docx_lines_are_paragraphs (paragraphs : list string) :
  paragraphs <> [] -> forallb no_line_feed paragraphs = true ->
  exists text, extract_text_from_docx (inr paragraphs) = inr text
               /\ lines text = paragraphs.
Proof.
  intros Hne Hp. destruct paragraphs as [|p l]; [contradiction|].
  eexists. split; [reflexivity|].
  unfold lines. now rewrite lines_from_concat.
Qed.

Lemma docx_lines_are_paragraphs_witness :
  exists text, extract_text_from_docx (inr ["Title"; EmptyString; "Body"]) = inr text
               /\ lines text = ["Title"; EmptyString; "Body"].
Proof.
  apply docx_lines_are_paragraphs; [discriminate|reflexivity].
Defined.


(** X20: a PDF none of whose pages has text (a scan without a text layer)
    is not refused: its text is empty, the preview is empty and
    [Generate Questions] is on offer as for any other file. *)
Theorem blank_pdf_is_accepted (py_str : value -> string) (s : session)
    (base : string) (texts : list string) (docx : docx_file)
    (utf8 : string + string) (n : Z) (r : pick) (g : generation) :
  quiz_started s = false -> filter has_text texts = [] ->
  interact py_str (Some s)
    (mkWidgets (Some (uploaded (base ++ ".pdf") (inr (map inr texts)) docx utf8))
       n None r g)
  = (Go tt,
     mkWorld s (page_head
                ++ [st_expander "Preview Extracted Text (first 1000 chars)";
                    st_write EmptyString;
                    st_button GenerateQuestions])).
Proof.
  intros Hs Hblank.
  set (f := uploaded (base ++ ".pdf") (inr (map inr texts)) docx utf8).
  assert (He : extractor f = Some (inr EmptyString)).
  { unfold f, uploaded, extractor. cbn [name as_pdf].
    rewrite endswith_app. unfold extract_text_from_pdf.
    now rewrite read_pages_texts, Hblank. }
  unfold interact.
  rewrite (run_preview py_str s (mkWidgets (Some f) n None r g) f EmptyString
             Hs eq_refl He).
  reflexivity.
Qed.

Lemma blank_pdf_is_accepted_witness :
  step Examples.str fresh
    (mkWidgets (Some (uploaded "scan.pdf" (inr [inr EmptyString; inr EmptyString])
                        (inl "not a DOCX") (inl "not UTF-8")))
       5 None PickA Examples.idle)
  = fresh.
Proof.
  exact (f_equal (fun r => state (snd r))
           (blank_pdf_is_accepted Examples.str fresh "scan"
              [EmptyString; EmptyString] (inl "not a DOCX") (inl "not UTF-8")
              5 PickA Examples.idle eq_refl eq_refl)).
Defined.

(** ** The timer *)

Lemma range_down_length (start stop : Z) :
  List.length (range_down start stop) = Z.to_nat (start - stop).
Proof. unfold range_down. now rewrite length_map, length_seq. Qed.

Lemma range_down_nth (start stop : Z) (k : nat) :
  (k < Z.to_nat (start - stop))%nat ->
  nth_error (range_down start stop) k = Some (start - Z.of_nat k).
Proof.
  intros Hk. unfold range_down.
  rewrite nth_error_map, nth_error_seq.
  replace (k <? Z.to_nat (start - stop))%nat with true
    by (symmetry; now apply Nat.ltb_lt).
  reflexivity.
Qed.

Section Frames.

Context {A : Type} (first second : A -> tick).

Lemma frames_nth (l : list A) (rest : list tick) (k : nat) (i : A) :
  nth_error l k = Some i ->
  nth_error (flat_map (fun i => [first i; second i]) l ++ rest) (2 * k)
  = Some (first i)
  /\ nth_error (flat_map (fun i => [first i; second i]) l ++ rest) (2 * k + 1)
     = Some (second i).
Proof.
  revert k. induction l as [|a l IH]; intros k Hk; [now destruct k|].
  destruct k as [|k].
  - cbn in Hk. injection Hk as ->. now split.
  - cbn in Hk. destruct (IH k Hk) as [H1 H2].
    replace (2 * S k)%nat with (S (S (2 * k))) by lia.
    replace (S (S (2 * k)) + 1)%nat with (S (S (2 * k + 1))) by lia.
    now split.
Qed.

Lemma frames_length (l : list A) :
  List.length (flat_map (fun i => [first i; second i]) l)
  = (2 * List.length l)%nat.
Proof. induction l as [|a l IH]; cbn [flat_map app List.length]; lia. Qed.

End Frames.

Lemma slept_frames {A} (text : A -> string) (l : list A) (total : Z) :
  fold_left (fun total t => match t with
                            | placeholder_markdown _ => total
                            | time_sleep n => total + n
                            end)
    (flat_map (fun i => [placeholder_markdown (text i); time_sleep 1]) l) total
  = total + Z.of_nat (List.length l).
Proof.
  revert total. induction l as [|a l IH]; intros total.
  - cbn. lia.
  - cbn [flat_map app fold_left]. rewrite IH. cbn [List.length]. lia.
Qed.

Lemma placeholder_last (l : list tick) (s : string) :
  placeholder_of (l ++ [placeholder_markdown s]) = Some s.
Proof.
  unfold placeholder_of. now rewrite fold_left_app.
Qed.

(** X21: the timer sleeps one second per count and never more:
    [seconds] seconds in all, none when [seconds] is zero or negative; it
    makes [2 * seconds + 1] steps and whatever [seconds] is, the placeholder
    ends on the time's-up message. *)
Theorem countdown_sleeps_its_seconds (py_str : value -> string) (seconds : Z) :
  slept (countdown_timer py_str seconds) = Z.max 0 seconds /\
  List.length (countdown_timer py_str seconds)
  = (2 * Z.to_nat seconds + 1)%nat /\
  placeholder_of (countdown_timer py_str seconds)
  = Some "⌛ Time's up! Moving to next question.".
Proof.
  unfold countdown_timer. repeat split.
  - unfold slept. rewrite fold_left_app, slept_frames, range_down_length.
    cbn [fold_left]. lia.
  - rewrite length_app, frames_length, range_down_length. cbn [List.length].
    rewrite Z.sub_0_r. reflexivity.
  - apply placeholder_last.
Qed.

(** X22: the timer counts down by one from [seconds] to 1: its step [2k]
    writes the time left, [seconds - k], into the placeholder and its step
    [2k + 1] sleeps one second, for every [k] below [seconds]; 0 is never
    shown as time left. *)
Theorem countdown_counts_down (py_str : value -> string) (seconds : Z)
    (k : nat) :
  Z.of_nat k < seconds ->
  nth_error (countdown_timer py_str seconds) (2 * k)
  = Some (placeholder_markdown
            ("⏳ Time left: " ++ py_str (VInt (seconds - Z.of_nat k))
             ++ " seconds")) /\
  nth_error (countdown_timer py_str seconds) (2 * k + 1) = Some (time_sleep 1) /\
  1 <= seconds - Z.of_nat k.
Proof.
  intros Hk. unfold countdown_timer.
  assert (Hn : nth_error (range_down seconds 0) k = Some (seconds - Z.of_nat k))
    by (apply range_down_nth; lia).
  destruct (frames_nth
              (fun i => placeholder_markdown
                          ("⏳ Time left: " ++ py_str (VInt i) ++ " seconds"))
              (fun _ => time_sleep 1) _
              [placeholder_markdown "⌛ Time's up! Moving to next question."]
              k _ Hn) as [H1 H2].
  repeat split; [exact H1|exact H2|lia].
Qed.

Lemma countdown_counts_down_witness :
  nth_error (countdown_timer Examples.str 3) 4
  = Some (placeholder_markdown "⏳ Time left: 1 seconds").
Proof.
  refine (proj1 (countdown_counts_down Examples.str 3 2 _)). lia.
Defined.

(** ** The generation request *)

(** X23: the prompt carries the text whole: two texts that give the same
    prompt are the same text, however long they are (the cut at 1000
    characters is for the preview only), and for one text two counts that
    give the same prompt are written the same. *)
Theorem prompt_keeps_text (py_str : value -> string) :
  (forall text1 text2 n,
     prompt py_str text1 n = prompt py_str text2 n -> text1 = text2) /\
  (forall text n1 n2,
     prompt py_str text n1 = prompt py_str text n2 ->
     py_str (VInt n1) = py_str (VInt n2)).
Proof.
  split.
  - intros text1 text2 n H. unfold prompt in H.
    rewrite !concat_cons in H.
    do 52 apply str_app_inv_head in H.
    now apply str_app_inv_tail in H.
  - intros text n1 n2 H. unfold prompt in H.
    rewrite !concat_cons in H.
    do 2 apply str_app_inv_head in H.
    rewrite !str_app_assoc in H.
    apply str_app_inv_head in H.
    now apply str_app_inv_tail in H.
Qed.

(** X24: of the response only the first choice is read: with choices
    present the content returned is that of the message of the first, the
    others play no part; with an empty list of choices the function raises
    [IndexError]. *)
Theorem response_reads_first_choice (d : list (string * value))
    (choices : list value) :
  lookup "choices" d = Some (VList choices) ->
  response_content (VDict d)
  = match choices with
    | [] => Raise IndexError
    | first :: _ =>
        match getitem_str first "message" with
        | Ok message => getitem_str message "content"
        | Raise e => Raise e
        end
    end.
Proof.
  intros H. unfold response_content. cbn [getitem_str]. rewrite H.
  destruct choices as [|first others]; [reflexivity|].
  unfold getitem_int, norm_index. cbn [List.length].
  replace (0 <? Z.of_nat (S (List.length others))) with true
    by (symmetry; apply Z.ltb_lt; lia).
  reflexivity.
Qed.

Lemma response_reads_first_choice_witness :
  response_content (VDict Replies.fields) = Ok (VStr "[]").
Proof.
  exact (response_reads_first_choice Replies.fields Replies.choices eq_refl).
Defined.
